(** * SBCarousel: navigation engine, gesture tracker and indicator mapper

    A shallow embedding of the logic of
    [src/components/SBCarousel/SBCarousel.tsx] and
    [src/components/SBCarousel/SBCarouselIndicators/SBCarouselIndicators.tsx].

    Conventions of the embedding.
    - Item indices and counts ([currentIndex], [length], [itemsPerView]) are
      integers ([Z]); pixel quantities ([scrollLeft], [itemWidth], pointer
      positions, sensitivities) are exact rationals ([Q]).  JavaScript's
      rounding of doubles is not modelled: a computation of the embedding
      agrees with the source when every value the source computes on the way
      is a double ([exactDouble]), since a correctly rounded operation
      returns an exact result that is representable.  Statements that depend
      on the outcome of a tie, or on an arithmetic identity, carry these
      conditions as hypotheses.
    - A React event handler reads the values captured by the render it was
      created in (the snapshot) and queues state updates that only become
      visible in the next render.  A handler is therefore a function of the
      snapshot that transforms a pending next state and a log of the
      [scrollTo] requests it issued.
    - The DOM node behind [carouselContentWrapperRef] is an input of every
      handler run: [None] is a [null] ref. *)

From Stdlib Require Import ZArith QArith Qabs Bool List Lia Lqa String.
Import ListNotations.

Local Open Scope Z_scope.

(** ** JavaScript helpers *)

(** [a % b] on integral numbers: the sign follows the dividend, and the result
    is [NaN] (here [None]) when the divisor is zero. *)
Definition jsRem (a b : Z) : option Z :=
  if b =? 0 then None else Some (Z.rem a b).

(** [a + r < b] where [r] may be [NaN]: every comparison with [NaN] is false. *)
Definition jsAddLt (a : Z) (r : option Z) (b : Z) : bool :=
  match r with
  | Some r' => a + r' <? b
  | None => false
  end.

(** Strict comparison on rationals, [a > b]. *)
Definition Qgtb (a b : Q) : bool := negb (Qle_bool a b).

(** Truthiness of a [null | number] value: [null] and [0] are falsy. *)
Definition truthyNum (v : option Q) : bool :=
  match v with
  | None => false
  | Some x => negb (Qeq_bool x 0)
  end.

(** ** React children *)

(** A child node as [React.Children] sees it. *)
Inductive Child : Type :=
| Element              (* a React element, fragment or portal *)
| Text (s : string)    (* a string child *)
| Num (n : Z)          (* a number child *)
| Empty.               (* null, undefined or a boolean *)

(** [Children.count]: empty nodes count as individual nodes. *)
Definition Children_count (children : list Child) : Z :=
  Z.of_nat (List.length children).

(** [Children.toArray]: empty nodes are omitted. *)
Definition Children_toArray (children : list Child) : list Child :=
  filter (fun c => match c with Empty => false | _ => true end) children.

(** Truthiness of [childrenArray[index]]; an index outside the array yields
    [undefined]. *)
Definition truthyChild (c : option Child) : bool :=
  match c with
  | Some Element => true
  | Some (Text s) => negb (String.eqb s EmptyString)
  | Some (Num n) => negb (n =? 0)
  | Some Empty => false
  | None => false
  end.

Definition arrayAt {A : Type} (l : list A) (index : Z) : option A :=
  if index <? 0 then None else nth_error l (Z.to_nat index).

(** ** Data model *)

(** The props of [SBCarousel] that the logic reads. *)
Record Props : Type := mkProps {
  children : list Child;
  itemsPerView : Z;
  infiniteLoop : bool;
  showArrowButtons : bool;
  freeScroll : bool;
  advancePagesOnAutoScroll : bool;
  scrollSensitivity : Q;
  minDragDistance : Q;
  autoplay : bool
}.

(** The five [useState] cells. *)
Record State : Type := mkState {
  currentIndex : Z;
  isDragging : bool;
  isMouseInside : bool;
  touchClickPosition : option Q;
  scrollLeft : Q
}.

(** Initial values passed to [useState]. *)
Definition initialState : State :=
  mkState 0 false false None 0%Q.

(** What a handler reads from the content wrapper element. *)
Record Wrapper : Type := mkWrapper {
  offsetWidth : Q;
  offsetLeft : Q;
  domScrollLeft : Q
}.

(** [carouselContentWrapperRef.current]. *)
Definition Ref : Type := option Wrapper.

(** One [ref.current.scrollTo({left, behavior})] request. *)
Record ScrollTo : Type := mkScrollTo {
  left : Q;
  smooth : bool
}.

(** ** Handlers as update transformers *)

(** Pending next state and the scroll requests issued so far. *)
Definition Upd : Type := (State * list ScrollTo)%type.

Definition Handler : Type := Upd -> Upd.

Definition skip : Handler := fun u => u.

Definition andThen (h1 h2 : Handler) : Handler := fun u => h2 (h1 u).

Notation "h1 ;; h2" := (andThen h1 h2) (at level 61, right associativity).

(** [cond && h()] used as a statement. *)
Definition when (b : bool) (h : Handler) : Handler :=
  if b then h else skip.

Definition setCurrentIndex (v : Z) : Handler := fun u =>
  let n := fst u in
  (mkState v (isDragging n) (isMouseInside n) (touchClickPosition n) (scrollLeft n),
   snd u).

Definition setIsDragging (v : bool) : Handler := fun u =>
  let n := fst u in
  (mkState (currentIndex n) v (isMouseInside n) (touchClickPosition n) (scrollLeft n),
   snd u).

Definition setIsMouseInside (v : bool) : Handler := fun u =>
  let n := fst u in
  (mkState (currentIndex n) (isDragging n) v (touchClickPosition n) (scrollLeft n),
   snd u).

Definition setTouchClickPosition (v : option Q) : Handler := fun u =>
  let n := fst u in
  (mkState (currentIndex n) (isDragging n) (isMouseInside n) v (scrollLeft n),
   snd u).

Definition setScrollLeft (v : Q) : Handler := fun u =>
  let n := fst u in
  (mkState (currentIndex n) (isDragging n) (isMouseInside n) (touchClickPosition n) v,
   snd u).

(** [scrollRefTo(left, smooth, ref)]: nothing happens on a null ref. *)
Definition scrollRefTo (l : Q) (sm : bool) (ref : Ref) : Handler := fun u =>
  match ref with
  | Some _ => (fst u, snd u ++ [mkScrollTo l sm])
  | None => u
  end.

(** Running a handler created by the render whose snapshot is [s]. *)
Definition run (h : Handler) (s : State) : Upd := h (s, []).

Definition nextState (h : Handler) (s : State) : State := fst (run h s).

Definition scrolls (h : Handler) (s : State) : list ScrollTo := snd (run h s).

(** ** The component *)

(** [itemWidth]: the memoised width of one item slot. *)
Definition computeItemWidth (ref : Ref) (ipv : Z) : Q :=
  match ref with
  | Some w => (offsetWidth w / inject_Z ipv)%Q
  | None => 0%Q
  end.

Section Carousel.

(** The props and the memoised item width captured by the render, and the
    ref as it is when the handler runs. *)
Variable p : Props.
Variable itemWidth : Q.
Variable ref : Ref.

Definition length : Z := Children_count (children p).

Definition isRepeating : bool :=
  infiniteLoop p && (itemsPerView p <? length).

Definition mounted : bool :=
  match ref with Some _ => true | None => false end.

(** *** Navigation engine *)

(** The guards of the four commands, as written in their [if]. *)
Definition nextItemGuard (s : State) : bool :=
  isRepeating || (currentIndex s + itemsPerView p <=? length).

Definition previousItemGuard (s : State) : bool :=
  isRepeating || (0 <? currentIndex s).

Definition nextPageGuard (s : State) : bool :=
  isRepeating
  || jsAddLt (currentIndex s) (jsRem length (itemsPerView p)) length.

Definition previousPageGuard (s : State) : bool :=
  isRepeating || (itemsPerView p <=? currentIndex s).

Definition nextItem (s : State) : Handler :=
  if negb mounted then skip
  else if nextItemGuard s then
    let newIndex :=
      if currentIndex s + itemsPerView p <? length
      then currentIndex s + 1 else 0 in
    let newScrollLeft := (inject_Z newIndex * itemWidth)%Q in
    setCurrentIndex newIndex ;;
    setScrollLeft newScrollLeft ;;
    setTouchClickPosition None ;;
    scrollRefTo newScrollLeft true ref
  else skip.

Definition previousItem (s : State) : Handler :=
  if negb mounted then skip
  else if previousItemGuard s then
    let newIndex :=
      if 0 <? currentIndex s then currentIndex s - 1 else length - 1 in
    let newScrollLeft := (inject_Z newIndex * itemWidth)%Q in
    setCurrentIndex newIndex ;;
    setScrollLeft newScrollLeft ;;
    setTouchClickPosition None ;;
    scrollRefTo newScrollLeft true ref
  else skip.

Definition nextPage (s : State) : Handler :=
  if negb mounted then skip
  else if nextPageGuard s then
    let newIndex :=
      if jsAddLt (currentIndex s) (jsRem length (itemsPerView p)) length
      then currentIndex s + itemsPerView p else 0 in
    let newScrollLeft := (inject_Z newIndex * itemWidth)%Q in
    setCurrentIndex newIndex ;;
    setScrollLeft newScrollLeft ;;
    setTouchClickPosition None ;;
    scrollRefTo newScrollLeft true ref
  else skip.

Definition previousPage (s : State) : Handler :=
  if negb mounted then skip
  else if previousPageGuard s then
    let newIndex :=
      if 0 <=? currentIndex s - itemsPerView p
      then currentIndex s - itemsPerView p else length - 1 in
    let newScrollLeft := (inject_Z newIndex * itemWidth)%Q in
    setCurrentIndex newIndex ;;
    setScrollLeft newScrollLeft ;;
    setTouchClickPosition None ;;
    scrollRefTo newScrollLeft true ref
  else skip.

(** The [for] loop of [scrollToClosestItemIndex], started at [index] with
    [fuel] iterations left: [Some newIndex] when a slot is hit, [None] when
    the loop returns on a falsy child or runs out of items. *)
Fixpoint closestLoop (raw : Q) (fuel : nat) (index : Z) : option Z :=
  match fuel with
  | O => None
  | S fuel' =>
      let child := arrayAt (Children_toArray (children p)) index in
      let childLeft := (itemWidth * inject_Z index)%Q in
      let newScrollLeft := raw in
      if negb (truthyChild child) then None
      else if Qle_bool childLeft newScrollLeft
              && Qle_bool newScrollLeft (childLeft + itemWidth)
      then Some (if Qgtb (childLeft + itemWidth / 2) newScrollLeft
                 then index else index + 1)
      else closestLoop raw fuel' (index + 1)
  end.

Definition closestItemIndex (raw : Q) : option Z :=
  closestLoop raw (Z.to_nat length) 0.

Definition scrollToClosestItemIndex (s : State) : Handler :=
  match ref with
  | None => skip
  | Some w =>
      match closestItemIndex (domScrollLeft w) with
      | Some newIndex =>
          setScrollLeft (inject_Z newIndex * itemWidth)%Q ;;
          setCurrentIndex newIndex ;;
          scrollRefTo (inject_Z newIndex * itemWidth)%Q true ref
      | None => skip
      end
  end.

(** *** Gesture tracker *)

(** [walk] of a move at [pageX] for a press recorded at [origin]. *)
Definition walkOf (w : Wrapper) (origin pageX : Q) : Q :=
  let x := (pageX - offsetLeft w)%Q in
  ((x - origin) * scrollSensitivity p)%Q.

Definition handleOnTouchStart (pageX : Q) (s : State) : Handler :=
  match ref with
  | None => skip
  | Some w =>
      setTouchClickPosition (Some (pageX - offsetLeft w)%Q) ;;
      setScrollLeft (domScrollLeft w)
  end.

Definition handleOnTouchEnd (s : State) : Handler :=
  setTouchClickPosition None ;;
  when (isDragging s) (setIsDragging false) ;;
  when (negb (freeScroll p)) (scrollToClosestItemIndex s).

Definition handleOnTouchCancel (s : State) : Handler :=
  when (truthyNum (touchClickPosition s)) (handleOnTouchEnd s) ;;
  when (isDragging s) (setIsDragging false).

Definition handleOnTouchMove (pageX : Q) (s : State) : Handler :=
  match touchClickPosition s, ref with
  | Some origin, Some w =>
      let walk := walkOf w origin pageX in
      when (negb (isDragging s) && Qgtb (Qabs walk) (minDragDistance p))
           (setIsDragging true) ;;
      when (isDragging s) (scrollRefTo (scrollLeft s - walk)%Q false ref)
  | _, _ => skip
  end.

Definition handleOnMouseEnter (s : State) : Handler :=
  setIsMouseInside true.

Definition handleOnMouseDown (pageX : Q) (s : State) : Handler :=
  match ref with
  | None => skip
  | Some w =>
      setTouchClickPosition (Some (pageX - offsetLeft w)%Q) ;;
      setScrollLeft (domScrollLeft w)
  end.

Definition handleOnMouseUp (s : State) : Handler :=
  setTouchClickPosition None ;;
  when (negb (freeScroll p)) (scrollToClosestItemIndex s) ;;
  when (isDragging s) (setIsDragging false).

Definition handleOnMouseLeave (s : State) : Handler :=
  when (truthyNum (touchClickPosition s)) (handleOnMouseUp s) ;;
  setIsMouseInside false.

Definition handleOnMouseMove (pageX : Q) (s : State) : Handler :=
  match touchClickPosition s, ref with
  | Some origin, Some w =>
      let walk := walkOf w origin pageX in
      when (Qgtb (Qabs walk) (minDragDistance p))
           (when (negb (isDragging s)) (setIsDragging true)) ;;
      when (isDragging s) (scrollRefTo (scrollLeft s - walk)%Q false ref)
  | _, _ => skip
  end.

(** *** Autoplay *)

(** The [useInterval] callback; the interval only runs while its delay is
    not [null]. *)
Definition autoplayRuns (s : State) : bool :=
  autoplay p && negb (truthyNum (touchClickPosition s)) && negb (isMouseInside s).

Definition autoplayTick (s : State) : Handler :=
  if autoplayRuns s then
    if advancePagesOnAutoScroll p then nextPage s else nextItem s
  else skip.

End Carousel.

(** ** Events of the rendered component *)

(** What the markup wires to the handlers: the two arrow buttons, the touch
    and mouse listeners of the content wrapper, and the autoplay interval.
    Pointer events carry [pageX]. *)
Inductive Event : Type :=
| ClickPrevious
| ClickNext
| TouchStart (pageX : Q)
| TouchMove (pageX : Q)
| TouchEnd
| TouchCancel
| MouseEnter
| MouseDown (pageX : Q)
| MouseUp
| MouseLeave
| MouseMove (pageX : Q)
| AutoplayTick.

Section Dispatch.

Variable p : Props.
Variable itemWidth : Q.
Variable ref : Ref.

(** The left arrow is rendered only when
    [showArrowButtons && (isRepeating || currentIndex > 0)]. *)
Definition previousButtonShown (s : State) : bool :=
  showArrowButtons p && (isRepeating p || (0 <? currentIndex s)).

(** The right arrow is rendered only when
    [showArrowButtons && (isRepeating || currentIndex < length - itemsPerView)]. *)
Definition nextButtonShown (s : State) : bool :=
  showArrowButtons p
  && (isRepeating p || (currentIndex s <? length p - itemsPerView p)).

Definition handle (e : Event) (s : State) : Handler :=
  match e with
  | ClickPrevious =>
      if previousButtonShown s then
        if advancePagesOnAutoScroll p
        then previousPage p itemWidth ref s
        else previousItem p itemWidth ref s
      else skip
  | ClickNext =>
      if nextButtonShown s then
        if advancePagesOnAutoScroll p
        then nextPage p itemWidth ref s
        else nextItem p itemWidth ref s
      else skip
  | TouchStart x => handleOnTouchStart ref x s
  | TouchMove x => handleOnTouchMove p ref x s
  | TouchEnd => handleOnTouchEnd p itemWidth ref s
  | TouchCancel => handleOnTouchCancel p itemWidth ref s
  | MouseEnter => handleOnMouseEnter s
  | MouseDown x => handleOnMouseDown ref x s
  | MouseUp => handleOnMouseUp p itemWidth ref s
  | MouseLeave => handleOnMouseLeave p itemWidth ref s
  | MouseMove x => handleOnMouseMove p ref x s
  | AutoplayTick => autoplayTick p itemWidth ref s
  end.

End Dispatch.

(** One event, delivered while the wrapper element is [w]; the render that
    created the handler measured the same element. *)
Definition step (p : Props) (w : Wrapper) (e : Event) (s : State) : State :=
  nextState (handle p (computeItemWidth (Some w) (itemsPerView p)) (Some w) e s) s.

(** A run of the mounted component from its initial state. *)
Fixpoint exec (p : Props) (trace : list (Wrapper * Event)) (s : State) : State :=
  match trace with
  | [] => s
  | (w, e) :: rest => exec p rest (step p w e s)
  end.

Definition reachable (p : Props) (s : State) : Prop :=
  exists trace, exec p trace initialState = s.

(** Valid configuration: [1 <= itemsPerView <= length]. *)
Definition validConfig (p : Props) : Prop :=
  1 <= itemsPerView p <= length p.

(** [currentIndex] is an index into the item collection. *)
Definition inRange (p : Props) (s : State) : Prop :=
  0 <= currentIndex s < length p.

(** [n] successive calls of a command, each from the render that follows the
    previous call. *)
Fixpoint iterate (cmd : State -> Handler) (n : nat) (s : State) : State :=
  match n with
  | O => s
  | S n' => iterate cmd n' (nextState (cmd s) s)
  end.

(** ** Indicator mapper *)

Module Indicators.

Inductive DotClass : Type := active | close | far.

(** The branch taken by the body of the [renderDots] loop for dot [index];
    [length] is the number of dots. *)
Definition classify (index currentIndex length : Z) : DotClass :=
  let calculatedActiveIndex := currentIndex in
  if calculatedActiveIndex =? index then active
  else if calculatedActiveIndex =? 0 then
    if calculatedActiveIndex + index <=? 2 then close else far
  else if calculatedActiveIndex =? length - 1 then
    if Z.abs (calculatedActiveIndex - index) <=? 2 then close else far
  else
    if Z.abs (calculatedActiveIndex - index) =? 1 then close else far.

(** The optional [indicatorClassNames] overrides. *)
Record ClassNames : Type := mkClassNames {
  cnActive : option string;
  cnClose : option string;
  cnFar : option string
}.

(** [custom || fallback]: an absent or empty custom name is falsy. *)
Definition orElse (custom : option string) (fallback : string) : string :=
  match custom with
  | Some s => if String.eqb s EmptyString then fallback else s
  | None => fallback
  end.

Definition className (names : option ClassNames) (c : DotClass) : string :=
  match c with
  | active => orElse (match names with Some n => cnActive n | None => None end)
                     "dots-active"
  | close => orElse (match names with Some n => cnClose n | None => None end)
                    "dots-close"
  | far => orElse (match names with Some n => cnFar n | None => None end)
                  "dots-far"
  end.

(** The [for] loop of [renderDots]: one [(data-index, className)] per dot. *)
Fixpoint dotsFrom (names : option ClassNames) (currentIndex length : Z)
         (fuel : nat) (index : Z) : list (Z * string) :=
  match fuel with
  | O => []
  | S fuel' =>
      (index, className names (classify index currentIndex length))
        :: dotsFrom names currentIndex length fuel' (index + 1)
  end.

Definition renderDots (names : option ClassNames) (currentIndex length : Z)
  : list (Z * string) :=
  dotsFrom names currentIndex length (Z.to_nat length) 0.

(** The scroll target of the indicator strip for the active dot. *)
Definition indicatorScrollLeft (index : Z) : Q :=
  ((inject_Z index - 2) / 5 * 50)%Q.

End Indicators.

(** The number of dots the carousel asks for. *)
Definition indicatorCount (p : Props) : Z := length p + 1 - itemsPerView p.

(** ** Commands and sample configurations *)

Definition Command : Type := Props -> Q -> Ref -> State -> Handler.

(** The four directional commands, each with its guard. *)
Definition navCommands : list ((Props -> State -> bool) * Command) :=
  [ (nextItemGuard, nextItem);
    (previousItemGuard, previousItem);
    (nextPageGuard, nextPage);
    (previousPageGuard, previousPage) ].

(** [n] element children. *)
Definition elements (n : nat) : list Child := repeat Element n.

(** The default values of the optional props. *)
Definition defaults (cs : list Child) (ipv : Z) : Props :=
  mkProps cs ipv false true false true 1%Q 2%Q false.

Definition withInfiniteLoop (pr : Props) : Props :=
  mkProps (children pr) (itemsPerView pr) true (showArrowButtons pr)
          (freeScroll pr) (advancePagesOnAutoScroll pr)
          (scrollSensitivity pr) (minDragDistance pr) (autoplay pr).

Definition withAutoplay (pr : Props) : Props :=
  mkProps (children pr) (itemsPerView pr) (infiniteLoop pr) (showArrowButtons pr)
          (freeScroll pr) (advancePagesOnAutoScroll pr)
          (scrollSensitivity pr) (minDragDistance pr) true.

(** A wrapper element of the given width, at the left edge of the page and
    scrolled to [sl]. *)
Definition wrapperAt (width sl : Q) : Wrapper := mkWrapper width 0%Q sl.

(** A move event whose walk, for a press recorded at [origin], stays within
    [minDragDistance]. *)
Definition smallMove (p : Props) (origin : Q) (we : Wrapper * Event) : Prop :=
  match snd we with
  | TouchMove x | MouseMove x =>
      (Qabs (walkOf p (fst we) origin x) <= minDragDistance p)%Q
  | _ => False
  end.

(** ** Items repeated around a looping carousel *)

(** A [for] loop that pushes [item index] for [fuel] successive indices. *)
Fixpoint pushLoop {A : Type} (item : Z -> A) (fuel : nat) (index : Z) : list A :=
  match fuel with
  | O => []
  | S fuel' => item index :: pushLoop item fuel' (index + 1)
  end.

(** [extraPreviousItems]: the entries [length - 1 - index] of the children
    array for [index < itemsPerView], then reversed. *)
Definition extraPreviousItems (p : Props) : list (option Child) :=
  rev (pushLoop (fun index =>
                   arrayAt (Children_toArray (children p)) (length p - 1 - index))
                (Z.to_nat (itemsPerView p)) 0).

(** [extraNextItems]: the entries [index] of the children array for
    [index < itemsPerView]. *)
Definition extraNextItems (p : Props) : list (option Child) :=
  pushLoop (fun index => arrayAt (Children_toArray (children p)) index)
           (Z.to_nat (itemsPerView p)) 0.

(** The condition under which the markup includes the extra items. *)
Definition extrasShown (p : Props) (addExtraFirstAndLastView : bool) : bool :=
  (itemsPerView p <? length p) && addExtraFirstAndLastView && isRepeating p.

(** The content of the carousel, in document order. *)
Definition renderedItems (p : Props) (addExtraFirstAndLastView : bool)
  : list (option Child) :=
  (if extrasShown p addExtraFirstAndLastView then extraPreviousItems p else [])
  ++ map Some (children p)
  ++ (if extrasShown p addExtraFirstAndLastView then extraNextItems p else []).

(** Events that neither release a pointer nor come from the autoplay
    interval: arrow clicks, presses, moves and mouse-enter. *)
Definition clickOrPointer (we : Wrapper * Event) : Prop :=
  match snd we with
  | TouchEnd | TouchCancel | MouseUp | MouseLeave | AutoplayTick => False
  | _ => True
  end.

(** A rendered dot carrying the default class name of the active dot. *)
Definition isActiveDot (dot : Z * string) : bool :=
  String.eqb (snd dot) "dots-active".

(** An event of the autoplay interval. *)
Definition isTick (we : Wrapper * Event) : Prop := snd we = AutoplayTick.

(** A rational that is a binary64 number: [m * 2^e] with [|m| < 2^53] and
    [-1074 <= e <= 971]. *)
Definition exactDouble (x : Q) : Prop :=
  exists m e : Z,
    Z.abs m < 2 ^ 53 /\ -1074 <= e <= 971 /\ (x == inject_Z m * 2 ^ e)%Q.

(** The values the snap loop computes for slot [k]: its left edge, its right
    edge and its midpoint. *)
Definition exactSlot (itemWidth : Q) (k : Z) : Prop :=
  exactDouble (itemWidth * inject_Z k)
  /\ exactDouble (itemWidth * inject_Z k + itemWidth)
  /\ exactDouble (itemWidth / 2)
  /\ exactDouble (itemWidth * inject_Z k + itemWidth / 2).

(** * Properties *)

(** ** The handler algebra *)

Lemma when_true (h : Handler) : when true h = h.
Proof. reflexivity. Qed.

(** ** Indicator mapper *)

Module IndicatorFacts.
Import Indicators.

(** C9: the class of a dot is [active] exactly at the current index;
    otherwise it is [close] within the forward band [index <= 2] when the
    current index is 0, within distance 2 when the current index is the last
    dot, and at distance exactly 1 in the interior; every other dot is
    [far].  Scenario: with 20 dots and current index 0, dot 2 is [close] and
    dot 3 is [far]. *)
Theorem C9_classify_spec :
  forall index currentIndex length : Z,
    (classify index currentIndex length = active <-> index = currentIndex)
    /\ (index <> currentIndex -> currentIndex = 0 ->
        (classify index currentIndex length = close <-> index <= 2)
        /\ (classify index currentIndex length = far <-> ~ index <= 2))
    /\ (index <> currentIndex -> currentIndex <> 0 -> currentIndex = length - 1 ->
        (classify index currentIndex length = close
         <-> Z.abs (currentIndex - index) <= 2)
        /\ (classify index currentIndex length = far
            <-> ~ Z.abs (currentIndex - index) <= 2))
    /\ (index <> currentIndex -> 0 <= index -> currentIndex = length - 1 ->
        (classify index currentIndex length = close
         <-> Z.abs (currentIndex - index) <= 2)
        /\ (classify index currentIndex length = far
            <-> ~ Z.abs (currentIndex - index) <= 2))
    /\ (index <> currentIndex -> currentIndex <> 0 -> currentIndex <> length - 1 ->
        (classify index currentIndex length = close
         <-> Z.abs (currentIndex - index) = 1)
        /\ (classify index currentIndex length = far
            <-> Z.abs (currentIndex - index) <> 1))
    /\ classify 2 0 20 = close
    /\ classify 3 0 20 = far.
Proof.
  intros index cur len. unfold classify.
  repeat split; try reflexivity; intros;
    repeat match goal with
      | H : context [if ?b then _ else _] |- _ =>
          let E := fresh "E" in destruct b eqn:E
      | |- context [if ?b then _ else _] =>
          let E := fresh "E" in destruct b eqn:E
      end;
    try discriminate; try reflexivity;
    repeat match goal with
      | E : (_ =? _) = true |- _ => apply Z.eqb_eq in E
      | E : (_ =? _) = false |- _ => apply Z.eqb_neq in E
      | E : (_ <=? _) = true |- _ => apply Z.leb_le in E
      | E : (_ <=? _) = false |- _ => apply Z.leb_gt in E
      end;
    try lia.
Qed.

(** The dots of scenario 5 as rendered with the default class names. *)
Example renderDots_start_of_20 :
  firstn 4 (renderDots None 0 20)
  = [(0, "dots-active"%string); (1, "dots-close"%string);
     (2, "dots-close"%string); (3, "dots-far"%string)].
Proof. reflexivity. Qed.

End IndicatorFacts.

(** ** Navigation engine *)

Section NavigationFacts.

Variable p : Props.
Variable itemWidth : Q.
Variable w : Wrapper.

Lemma nextItem_run (s : State) :
  run (nextItem p itemWidth (Some w) s) s
  = if nextItemGuard p s then
      let newIndex :=
        if currentIndex s + itemsPerView p <? length p
        then currentIndex s + 1 else 0 in
      (mkState newIndex (isDragging s) (isMouseInside s) None
               (inject_Z newIndex * itemWidth)%Q,
       [mkScrollTo (inject_Z newIndex * itemWidth)%Q true])
    else (s, []).
Proof. unfold nextItem; simpl. destruct (nextItemGuard p s); reflexivity. Qed.

Lemma previousItem_run (s : State) :
  run (previousItem p itemWidth (Some w) s) s
  = if previousItemGuard p s then
      let newIndex :=
        if 0 <? currentIndex s then currentIndex s - 1 else length p - 1 in
      (mkState newIndex (isDragging s) (isMouseInside s) None
               (inject_Z newIndex * itemWidth)%Q,
       [mkScrollTo (inject_Z newIndex * itemWidth)%Q true])
    else (s, []).
Proof. unfold previousItem; simpl. destruct (previousItemGuard p s); reflexivity. Qed.

Lemma nextPage_run (s : State) :
  run (nextPage p itemWidth (Some w) s) s
  = if nextPageGuard p s then
      let newIndex :=
        if jsAddLt (currentIndex s) (jsRem (length p) (itemsPerView p)) (length p)
        then currentIndex s + itemsPerView p else 0 in
      (mkState newIndex (isDragging s) (isMouseInside s) None
               (inject_Z newIndex * itemWidth)%Q,
       [mkScrollTo (inject_Z newIndex * itemWidth)%Q true])
    else (s, []).
Proof. unfold nextPage; simpl. destruct (nextPageGuard p s); reflexivity. Qed.

Lemma previousPage_run (s : State) :
  run (previousPage p itemWidth (Some w) s) s
  = if previousPageGuard p s then
      let newIndex :=
        if 0 <=? currentIndex s - itemsPerView p
        then currentIndex s - itemsPerView p else length p - 1 in
      (mkState newIndex (isDragging s) (isMouseInside s) None
               (inject_Z newIndex * itemWidth)%Q,
       [mkScrollTo (inject_Z newIndex * itemWidth)%Q true])
    else (s, []).
Proof. unfold previousPage; simpl. destruct (previousPageGuard p s); reflexivity. Qed.

(** On a null ref every command returns at once. *)
Lemma unmounted_noop (s : State) (gc : (Props -> State -> bool) * Command) :
  In gc navCommands -> run (snd gc p itemWidth None s) s = (s, []).
Proof.
  unfold navCommands; simpl.
  intros [<- | [<- | [<- | [<- | []]]]]; reflexivity.
Qed.

(** A command whose guard fails leaves the snapshot as it is. *)
Lemma guard_fails_noop (s : State) (ref : Ref)
      (gc : (Props -> State -> bool) * Command) :
  In gc navCommands -> fst gc p s = false ->
  run (snd gc p itemWidth ref s) s = (s, []).
Proof.
  unfold navCommands; simpl.
  intros [<- | [<- | [<- | [<- | []]]]]; simpl; intros G;
    [ unfold nextItem | unfold previousItem
    | unfold nextPage | unfold previousPage ];
    rewrite G; destruct (negb (mounted ref)); reflexivity.
Qed.

(** [nextItem], [previousItem] and [previousPage] keep [currentIndex] a
    valid item index. *)
Lemma item_commands_in_range (s : State) :
  validConfig p -> inRange p s ->
  inRange p (nextState (nextItem p itemWidth (Some w) s) s)
  /\ inRange p (nextState (previousItem p itemWidth (Some w) s) s)
  /\ inRange p (nextState (previousPage p itemWidth (Some w) s) s).
Proof.
  unfold validConfig, inRange, nextState. intros V R.
  rewrite nextItem_run, previousItem_run, previousPage_run.
  repeat split;
    repeat match goal with
      | |- context [if ?b then _ else _] =>
          let E := fresh "E" in destruct b eqn:E
      end; simpl;
    repeat match goal with
      | E : (_ <? _) = true |- _ => apply Z.ltb_lt in E
      | E : (_ <? _) = false |- _ => apply Z.ltb_ge in E
      | E : (_ <=? _) = true |- _ => apply Z.leb_le in E
      | E : (_ <=? _) = false |- _ => apply Z.leb_gt in E
      end; try lia.
Qed.

End NavigationFacts.

(** C10: every directional command whose guard holds, run on a mounted
    wrapper, leaves the recorded press position [null]. *)
Theorem C10_navigation_resets_press_position :
  forall (p : Props) (itemWidth : Q) (w : Wrapper) (s : State)
         (gc : (Props -> State -> bool) * Command),
    In gc navCommands ->
    fst gc p s = true ->
    touchClickPosition (nextState (snd gc p itemWidth (Some w) s) s) = None.
Proof.
  intros p iw w s gc. unfold navCommands, nextState; simpl.
  intros [<- | [<- | [<- | [<- | []]]]]; simpl; intros G;
    [ rewrite nextItem_run | rewrite previousItem_run
    | rewrite nextPage_run | rewrite previousPage_run ];
    rewrite G; reflexivity.
Qed.

(** A press is pending, the carousel sits at index 5 of 10 with 4 per view:
    all four commands pass their guard and drop the press. *)
Lemma C10_witness :
  Forall (fun gc : (Props -> State -> bool) * Command =>
            fst gc (defaults (elements 10) 4)
                (mkState 5 false true (Some 37%Q) 500%Q) = true
            /\ touchClickPosition
                 (nextState (snd gc (defaults (elements 10) 4) 100%Q
                                 (Some (wrapperAt 400 500))
                                 (mkState 5 false true (Some 37%Q) 500%Q))
                            (mkState 5 false true (Some 37%Q) 500%Q)) = None)
         navCommands.
Proof.
  unfold navCommands.
  repeat (apply Forall_cons;
          [ split;
            [ reflexivity
            | apply C10_navigation_resets_press_position;
              [ simpl; tauto | reflexivity ] ]
          | ]).
  apply Forall_nil.
Defined.

(** Away from the boundary a non-repeating [nextItem] advances by one, and
    past it it does nothing. *)
Lemma nextItem_not_repeating (p : Props) (itemWidth : Q) (w : Wrapper) (s : State) :
  isRepeating p = false ->
  (currentIndex s + itemsPerView p < length p ->
   currentIndex (nextState (nextItem p itemWidth (Some w) s) s) = currentIndex s + 1)
  /\ (length p < currentIndex s + itemsPerView p ->
      run (nextItem p itemWidth (Some w) s) s = (s, [])).
Proof.
  intros R. unfold nextState. rewrite nextItem_run. unfold nextItemGuard.
  rewrite R; simpl. split; intros H.
  - destruct (Z.leb_spec (currentIndex s + itemsPerView p) (length p)); [| lia].
    destruct (Z.ltb_spec (currentIndex s + itemsPerView p) (length p)); [| lia].
    reflexivity.
  - destruct (Z.leb_spec (currentIndex s + itemsPerView p) (length p)); [lia |].
    reflexivity.
Qed.

(** Scenarios 1 to 3 of the specification: the boundary no-op of
    [previousItem], four [nextItem] steps from 0 with 10 items shown 4 per
    view, and the wrap of a looping carousel of 5 items shown 4 per view. *)
Example navigation_scenarios :
  let p := defaults (elements 10) 4 in
  let q := withInfiniteLoop (defaults (elements 5) 4) in
  let ref := Some (wrapperAt 400 0) in
  run (previousItem p 100%Q ref initialState) initialState = (initialState, [])
  /\ map (fun n => currentIndex (iterate (nextItem p 100%Q ref) n initialState))
         [1; 2; 3; 4]%nat = [1; 2; 3; 4]
  /\ currentIndex (nextState (nextItem q 100%Q ref (mkState 4 false false None 400%Q))
                             (mkState 4 false false None 400%Q)) = 0.
Proof. cbv zeta. repeat split. Qed.

(** C2: with 10 items, 4 per view and no looping, [nextItem] at index 6
    (where [currentIndex + itemsPerView = length]) passes its guard and sets
    the index to 0: the state is not left unchanged at the right boundary. *)
Theorem C2_nextItem_wraps_without_repeating :
  let p := defaults (elements 10) 4 in
  let s := mkState 6 false false None 600%Q in
  isRepeating p = false
  /\ currentIndex s + itemsPerView p = length p
  /\ run (nextItem p 100%Q (Some (wrapperAt 400 600)) s) s
     = (mkState 0 false false None (inject_Z 0 * 100)%Q,
        [mkScrollTo (inject_Z 0 * 100)%Q true])
  /\ nextState (nextItem p 100%Q (Some (wrapperAt 400 600)) s) s <> s.
Proof.
  cbv zeta. repeat split; try reflexivity.
  intros H. apply (f_equal currentIndex) in H. discriminate H.
Qed.

(** C1: in a valid looping configuration of 4 items shown 2 per view, two
    clicks on the next arrow from the initial state run [nextPage] twice and
    leave [currentIndex = 4 = length], outside [0, length-1]; the same happens
    without looping when the autoplay interval fires twice. *)
Theorem C1_nextPage_leaves_range :
  let p := withInfiniteLoop (defaults (elements 4) 2) in
  let q := withAutoplay (defaults (elements 4) 2) in
  let w := wrapperAt 200 0 in
  validConfig p /\ validConfig q
  /\ inRange p (exec p [(w, ClickNext)] initialState)
  /\ nextPageGuard p (exec p [(w, ClickNext)] initialState) = true
  /\ currentIndex (exec p [(w, ClickNext); (w, ClickNext)] initialState) = length p
  /\ reachable p (exec p [(w, ClickNext); (w, ClickNext)] initialState)
  /\ ~ inRange p (exec p [(w, ClickNext); (w, ClickNext)] initialState)
  /\ isRepeating q = false
  /\ reachable q (exec q [(w, AutoplayTick); (w, AutoplayTick)] initialState)
  /\ ~ inRange q (exec q [(w, AutoplayTick); (w, AutoplayTick)] initialState).
Proof.
  cbv zeta. unfold validConfig, inRange, reachable.
  repeat split; try (vm_compute; congruence); try reflexivity.
  - eexists; reflexivity.
  - vm_compute. intros [_ H]. discriminate H.
  - eexists; reflexivity.
  - vm_compute. intros [_ H]. discriminate H.
Qed.

(** *** The cycle of [nextItem] while repeating *)

Section NextItemCycle.

Variable p : Props.
Variable itemWidth : Q.
Variable w : Wrapper.

Hypothesis looping : infiniteLoop p = true.
Hypothesis more_than_a_view : itemsPerView p < length p.

Let next (s : State) : Handler := nextItem p itemWidth (Some w) s.

Lemma repeating : isRepeating p = true.
Proof using looping more_than_a_view.
  unfold isRepeating. rewrite looping; simpl. now apply Z.ltb_lt.
Qed.

Lemma nextItem_index (s : State) :
  currentIndex (nextState (next s) s)
  = if currentIndex s + itemsPerView p <? length p
    then currentIndex s + 1 else 0.
Proof using looping more_than_a_view.
  unfold next, nextState. rewrite nextItem_run.
  unfold nextItemGuard. rewrite repeating. reflexivity.
Qed.

(** [n] calls climb by [n] while the window still fits. *)
Lemma iterate_climbs (n : nat) :
  forall s : State,
    currentIndex s + Z.of_nat n + itemsPerView p <= length p ->
    currentIndex (iterate next n s) = currentIndex s + Z.of_nat n.
Proof using looping more_than_a_view.
  induction n as [| n IH]; intros s Hfit.
  - simpl. lia.
  - cbn [iterate]. rewrite IH; rewrite nextItem_index;
      destruct (Z.ltb_spec (currentIndex s + itemsPerView p) (length p)); lia.
Qed.

Lemma iterate_succ (n : nat) (s : State) :
  iterate next (S n) s = nextState (next (iterate next n s)) (iterate next n s).
Proof.
  revert s. induction n as [| n IH]; intros s.
  - reflexivity.
  - change (iterate next (S (S n)) s)
      with (iterate next (S n) (nextState (next s) s)).
    rewrite IH. reflexivity.
Qed.

(** From index 0 the calls visit [0, 1, ..., length - itemsPerView] in
    order and the next call is back at 0. *)
Lemma nextItem_cycle (s0 : State) :
  currentIndex s0 = 0 ->
  (forall k : Z,
      0 <= k <= length p - itemsPerView p ->
      currentIndex (iterate next (Z.to_nat k) s0) = k)
  /\ currentIndex
       (iterate next (Z.to_nat (length p - itemsPerView p + 1)) s0) = 0.
Proof using looping more_than_a_view.
  intros H0.
  assert (Hclimb : forall k : Z,
             0 <= k <= length p - itemsPerView p ->
             currentIndex (iterate next (Z.to_nat k) s0) = k).
  { intros k Hk. rewrite iterate_climbs; rewrite H0, Z2Nat.id; lia. }
  split; [exact Hclimb |].
  replace (Z.to_nat (length p - itemsPerView p + 1))
    with (S (Z.to_nat (length p - itemsPerView p))) by lia.
  rewrite iterate_succ, nextItem_index, Hclimb by lia.
  destruct (Z.ltb_spec (length p - itemsPerView p + itemsPerView p) (length p));
    [lia | reflexivity].
Qed.

End NextItemCycle.

(** C4, as stated, fails: looping over 3 items shown 2 per view, three calls
    of [nextItem] from index 0 do not end at 0, and index 2 is never visited. *)
Lemma C4_counterexample :
  let p := withInfiniteLoop (defaults (elements 3) 2) in
  let next := nextItem p 100%Q (Some (wrapperAt 200 0)) in
  isRepeating p = true /\ itemsPerView p < length p
  /\ ~ (currentIndex (iterate next (Z.to_nat (length p)) initialState) = 0
        /\ forall i : Z, 0 <= i < length p ->
             exists n : nat, (n <= Z.to_nat (length p))%nat
                             /\ currentIndex (iterate next n initialState) = i).
Proof.
  cbv zeta. repeat split; try reflexivity.
  intros [H _]. vm_compute in H. discriminate H.
Qed.

(** C4 (amended): in a repeating configuration with [length > itemsPerView],
    iterating [nextItem] from index 0 visits exactly the indices
    [0 .. length - itemsPerView], in order, and is back at 0 after exactly
    [length - itemsPerView + 1] calls. *)
Theorem C4_nextItem_cycle :
  forall (p : Props) (itemWidth : Q) (w : Wrapper) (s0 : State),
    infiniteLoop p = true ->
    itemsPerView p < length p ->
    currentIndex s0 = 0 ->
    let next := nextItem p itemWidth (Some w) in
    (forall k : Z,
        0 <= k <= length p - itemsPerView p ->
        currentIndex (iterate next (Z.to_nat k) s0) = k)
    /\ currentIndex
         (iterate next (Z.to_nat (length p - itemsPerView p + 1)) s0) = 0
    /\ (forall n : nat,
           0 <= currentIndex (iterate next n s0) <= length p - itemsPerView p).
Proof.
  intros p iw w s0 Hloop Hlen H0 next.
  destruct (nextItem_cycle p iw w Hloop Hlen s0 H0) as [Hclimb Hback].
  split; [exact Hclimb | split; [exact Hback |]].
  assert (Hstep : forall s : State,
             currentIndex (nextState (next s) s)
             = if currentIndex s + itemsPerView p <? length p
               then currentIndex s + 1 else 0)
    by (intros s; apply (nextItem_index p iw w Hloop Hlen)).
  assert (Hsucc : forall (n : nat) (s : State),
             iterate next (S n) s
             = nextState (next (iterate next n s)) (iterate next n s))
    by (intros n s; apply (iterate_succ p iw w)).
  induction n as [| n IH].
  - simpl. lia.
  - rewrite Hsucc, Hstep.
    destruct (Z.ltb_spec (currentIndex (iterate next n s0) + itemsPerView p)
                         (length p)); lia.
Qed.

(** Five items shown four per view, looping: indices 0 and 1, then 0 again. *)
Lemma C4_witness :
  let p := withInfiniteLoop (defaults (elements 5) 4) in
  let next := nextItem p 100%Q (Some (wrapperAt 400 0)) in
  (infiniteLoop p = true /\ itemsPerView p < length p
   /\ currentIndex initialState = 0)
  /\ currentIndex (iterate next 1 initialState) = 1
  /\ currentIndex (iterate next 2 initialState) = 0.
Proof.
  cbv zeta.
  pose proof (C4_nextItem_cycle (withInfiniteLoop (defaults (elements 5) 4))
                100%Q (wrapperAt 400 0) initialState
                eq_refl eq_refl eq_refl) as [Hclimb [Hback _]].
  split; [repeat split |].
  split.
  - exact (Hclimb 1 ltac:(vm_compute; split; discriminate)).
  - exact Hback.
Defined.

(** C6: the commands are guarded by the wrapper ref, not by the item width.
    The first render memoises item width 0 (the ref is still null); a command
    issued after mount, before any re-render, runs with that 0 on a mounted
    ref.  With 10 items shown 4 per view, [nextItem] then moves
    [currentIndex] from 0 to 1 and [nextPage] moves it to 4, each storing
    offset 0 and requesting a scroll to 0: the commands are not no-ops.  The
    same happens when the mounted wrapper measures 0 pixels wide. *)
Theorem C6_zero_width_commands_move_index :
  let p := defaults (elements 10) 4 in
  let mountedRef := Some (wrapperAt 400 0) in
  let memoised := computeItemWidth None (itemsPerView p) in
  let hidden := Some (wrapperAt 0 0) in
  memoised = 0%Q
  /\ run (nextItem p memoised mountedRef initialState) initialState
     = (mkState 1 false false None (inject_Z 1 * 0)%Q,
        [mkScrollTo (inject_Z 1 * 0)%Q true])
  /\ run (nextPage p memoised mountedRef initialState) initialState
     = (mkState 4 false false None (inject_Z 4 * 0)%Q,
        [mkScrollTo (inject_Z 4 * 0)%Q true])
  /\ (inject_Z 1 * 0 == 0)%Q /\ (inject_Z 4 * 0 == 0)%Q
  /\ (computeItemWidth hidden (itemsPerView p) == 0)%Q
  /\ currentIndex
       (nextState (nextItem p (computeItemWidth hidden (itemsPerView p)) hidden
                            initialState) initialState) = 1
  /\ (forall (itemWidth : Q) (s : State)
             (gc : (Props -> State -> bool) * Command),
         In gc navCommands -> run (snd gc p itemWidth None s) s = (s, [])).
Proof.
  cbv zeta. repeat split; try reflexivity.
  intros iw s gc Hin. now apply unmounted_noop.
Qed.

(** ** Gesture tracker *)

Lemma Qgtb_true (a b : Q) : Qgtb a b = true <-> (b < a)%Q.
Proof.
  unfold Qgtb. rewrite negb_true_iff. split; intros H.
  - apply Qnot_le_lt. intros Hle. apply Qle_bool_iff in Hle. congruence.
  - destruct (Qle_bool a b) eqn:E; [| reflexivity].
    apply Qle_bool_iff in E. exfalso. exact (Qlt_not_le _ _ H E).
Qed.

Lemma Qgtb_false (a b : Q) : Qgtb a b = false <-> (a <= b)%Q.
Proof.
  unfold Qgtb. rewrite negb_false_iff. apply Qle_bool_iff.
Qed.

Section GestureFacts.

Variable p : Props.
Variable w : Wrapper.

(** Both move handlers, run during a session on a mounted wrapper: the drag
    flag of the next render is raised when the walk exceeds the threshold,
    and a scroll is requested only if the snapshot was already dragging. *)
Lemma move_run (pageX origin : Q) (s : State) (h : Ref -> Q -> State -> Handler) :
  h = handleOnTouchMove p \/ h = handleOnMouseMove p ->
  touchClickPosition s = Some origin ->
  run (h (Some w) pageX s) s
  = (mkState (currentIndex s)
             (isDragging s
              || Qgtb (Qabs (walkOf p w origin pageX)) (minDragDistance p))
             (isMouseInside s) (touchClickPosition s) (scrollLeft s),
     if isDragging s
     then [mkScrollTo (scrollLeft s - walkOf p w origin pageX)%Q false]
     else []).
Proof.
  intros Hh Ho. destruct s as [ci d mi tc sl]. cbn in Ho. subst tc.
  destruct Hh as [-> | ->]; unfold handleOnTouchMove, handleOnMouseMove;
    cbn [touchClickPosition isDragging scrollLeft currentIndex isMouseInside];
    cbv zeta;
    generalize (walkOf p w origin pageX); intros walk;
    destruct d, (Qgtb (Qabs walk) (minDragDistance p));
    reflexivity.
Qed.

(** A move leaves the recorded press position alone. *)
Lemma move_keeps_origin (pageX : Q) (s : State) (ref : Ref)
      (h : Ref -> Q -> State -> Handler) :
  h = handleOnTouchMove p \/ h = handleOnMouseMove p ->
  touchClickPosition (nextState (h ref pageX s) s) = touchClickPosition s.
Proof.
  intros [-> | ->]; unfold nextState, handleOnTouchMove, handleOnMouseMove;
    destruct s as [ci d mi [o |] sl], ref as [w' |];
    cbn [touchClickPosition isDragging scrollLeft currentIndex isMouseInside];
    try reflexivity; cbv zeta;
    generalize (walkOf p w' o pageX); intros walk;
    destruct d, (Qgtb (Qabs walk) (minDragDistance p));
    reflexivity.
Qed.

End GestureFacts.

(** C8: during a session (a press is recorded and the wrapper is mounted) a
    run of move events whose walks all stay within [minDragDistance] never
    changes [isDragging] (so it never enters the dragging state); one move,
    touch or mouse, whose walk exceeds it raises [isDragging]. *)
Theorem C8_drag_commit_threshold :
  forall (p : Props) (origin : Q),
    (forall (trace : list (Wrapper * Event)) (s : State),
        touchClickPosition s = Some origin ->
        Forall (smallMove p origin) trace ->
        isDragging (exec p trace s) = isDragging s)
    /\ (forall (w : Wrapper) (pageX : Q) (s : State),
           touchClickPosition s = Some origin ->
           (minDragDistance p < Qabs (walkOf p w origin pageX))%Q ->
           isDragging (step p w (TouchMove pageX) s) = true
           /\ isDragging (step p w (MouseMove pageX) s) = true).
Proof.
  intros p origin. split.
  - induction trace as [| [w e] rest IH]; intros s Ho Hall.
    + reflexivity.
    + inversion Hall as [| ? ? Hsmall Hrest]; subst.
      cbn [exec]. unfold smallMove in Hsmall; cbn [fst snd] in Hsmall.
      assert (Hstep : touchClickPosition (step p w e s) = Some origin
                      /\ isDragging (step p w e s) = isDragging s).
      { destruct e; try contradiction; unfold step; cbn [handle]; split.
        - rewrite (move_keeps_origin p pageX s (Some w) (handleOnTouchMove p));
            [exact Ho | now left].
        - unfold nextState.
          rewrite (move_run p w pageX origin s (handleOnTouchMove p));
            [| now left | exact Ho].
          cbn [fst isDragging]. apply Qgtb_false in Hsmall.
          rewrite Hsmall. apply orb_false_r.
        - rewrite (move_keeps_origin p pageX s (Some w) (handleOnMouseMove p));
            [exact Ho | now right].
        - unfold nextState.
          rewrite (move_run p w pageX origin s (handleOnMouseMove p));
            [| now right | exact Ho].
          cbn [fst isDragging]. apply Qgtb_false in Hsmall.
          rewrite Hsmall. apply orb_false_r. }
      destruct Hstep as [Ho' Hd'].
      rewrite (IH _ Ho' Hrest). exact Hd'.
  - intros w pageX s Ho Hbig. apply Qgtb_true in Hbig.
    unfold step, nextState; cbn [handle].
    rewrite (move_run p w pageX origin s (handleOnTouchMove p));
      [| now left | exact Ho].
    rewrite (move_run p w pageX origin s (handleOnMouseMove p));
      [| now right | exact Ho].
    cbn [fst isDragging]. rewrite Hbig. rewrite orb_true_r. split; reflexivity.
Qed.

(** A press at 50: moves to 51 and 49 do not start a drag, a move to 53
    does. *)
Lemma C8_witness :
  let p := defaults (elements 10) 4 in
  let w := wrapperAt 400 0 in
  let s := mkState 0 false true (Some 50%Q) 0%Q in
  (Forall (smallMove p 50%Q) [(w, MouseMove 51%Q); (w, TouchMove 49%Q)]
   /\ (minDragDistance p < Qabs (walkOf p w 50%Q 53%Q))%Q)
  /\ isDragging (exec p [(w, MouseMove 51%Q); (w, TouchMove 49%Q)] s) = false
  /\ isDragging (step p w (TouchMove 53%Q) s) = true
  /\ isDragging (step p w (MouseMove 53%Q) s) = true.
Proof.
  cbv zeta.
  assert (Hsmall : Forall (smallMove (defaults (elements 10) 4) 50%Q)
                          [(wrapperAt 400 0, MouseMove 51%Q);
                           (wrapperAt 400 0, TouchMove 49%Q)]).
  { repeat constructor; vm_compute; discriminate. }
  assert (Hbig : (minDragDistance (defaults (elements 10) 4)
                  < Qabs (walkOf (defaults (elements 10) 4)
                                 (wrapperAt 400 0) 50%Q 53%Q))%Q)
    by (vm_compute; reflexivity).
  destruct (C8_drag_commit_threshold (defaults (elements 10) 4) 50%Q)
    as [Hseq Hone].
  split; [split; assumption |].
  split.
  - exact (Hseq _ (mkState 0 false true (Some 50%Q) 0%Q) eq_refl Hsmall).
  - exact (Hone (wrapperAt 400 0) 53%Q (mkState 0 false true (Some 50%Q) 0%Q)
                eq_refl Hbig).
Defined.

(** C7, as stated, fails: pressed at 50 with baseline offset 300, default
    sensitivity 1 and threshold 2, the move to 70 requests no scroll at all,
    so it does not write [300 - 20]; the handler tests the [isDragging] of
    the render it was created in. *)
Lemma C7_counterexample :
  let p := defaults (elements 10) 4 in
  let ref := Some (wrapperAt 400 300) in
  let s := mkState 3 false true (Some 50%Q) 300%Q in
  ~ (isDragging (nextState (handleOnMouseMove p ref 70%Q s) s) = true
     /\ exists c : ScrollTo,
         In c (scrolls (handleOnMouseMove p ref 70%Q s) s)
         /\ (left c == 300 - 20)%Q)
  /\ ~ (isDragging (nextState (handleOnTouchMove p ref 70%Q s) s) = true
        /\ exists c : ScrollTo,
            In c (scrolls (handleOnTouchMove p ref 70%Q s) s)
            /\ (left c == 300 - 20)%Q).
Proof.
  cbv zeta. split; intros [_ [c [Hin _]]]; vm_compute in Hin; exact Hin.
Qed.

(** C7 (amended): pressed at 50, a touch or mouse move to pointer position 70
    with sensitivity 1 and threshold 2 has [walk = 20] and raises
    [isDragging], but requests no scroll; the next move at the same position,
    handled by the re-rendered component, writes
    [baselineScrollOffset - 20], not smoothed. *)
Theorem C7_threshold_move_then_offset :
  forall (p : Props) (w : Wrapper) (s : State) (origin pageX : Q)
         (h : Ref -> Q -> State -> Handler),
    h = handleOnTouchMove p \/ h = handleOnMouseMove p ->
    touchClickPosition s = Some origin ->
    isDragging s = false ->
    (origin == 50)%Q ->
    (pageX - offsetLeft w == 70)%Q ->
    (scrollSensitivity p == 1)%Q ->
    (minDragDistance p == 2)%Q ->
    let s' := nextState (h (Some w) pageX s) s in
    (walkOf p w origin pageX == 20)%Q
    /\ isDragging s' = true
    /\ scrolls (h (Some w) pageX s) s = []
    /\ exists c : ScrollTo,
        scrolls (h (Some w) pageX s') s' = [c]
        /\ (left c == scrollLeft s - 20)%Q
        /\ smooth c = false.
Proof.
  intros p w s origin pageX h Hh Ho Hd Horigin Hx Hsens Hmin s'.
  assert (Hwalk : (walkOf p w origin pageX == 20)%Q).
  { unfold walkOf; cbv zeta. rewrite Hx, Horigin, Hsens. reflexivity. }
  assert (Hgt : Qgtb (Qabs (walkOf p w origin pageX)) (minDragDistance p) = true).
  { apply Qgtb_true. rewrite Hwalk, Hmin. reflexivity. }
  assert (Hs' : s' = mkState (currentIndex s) true (isMouseInside s)
                             (touchClickPosition s) (scrollLeft s)).
  { unfold s', nextState. rewrite (move_run p w pageX origin s h Hh Ho).
    cbn [fst]. rewrite Hgt, orb_true_r. reflexivity. }
  split; [exact Hwalk |].
  split; [rewrite Hs'; reflexivity |].
  split.
  - unfold scrolls. rewrite (move_run p w pageX origin s h Hh Ho).
    cbn [snd]. rewrite Hd. reflexivity.
  - exists (mkScrollTo (scrollLeft s - walkOf p w origin pageX)%Q false).
    split; [| split].
    + unfold scrolls.
      rewrite (move_run p w pageX origin s' h Hh) by (rewrite Hs'; exact Ho).
      rewrite Hs'. reflexivity.
    + cbn [left]. rewrite Hwalk. reflexivity.
    + reflexivity.
Qed.

(** Scenario 4 on a wrapper 10 pixels from the page edge, baseline 300. *)
Lemma C7_witness :
  let p := defaults (elements 10) 4 in
  let w := mkWrapper 400%Q 10%Q 300%Q in
  let s := mkState 3 false true (Some 50%Q) 300%Q in
  let s' := nextState (handleOnMouseMove p (Some w) 80%Q s) s in
  (touchClickPosition s = Some 50%Q /\ isDragging s = false
   /\ (50 == 50)%Q /\ (80 - offsetLeft w == 70)%Q
   /\ (scrollSensitivity p == 1)%Q /\ (minDragDistance p == 2)%Q)
  /\ isDragging s' = true
  /\ scrolls (handleOnMouseMove p (Some w) 80%Q s) s = []
  /\ exists c : ScrollTo,
      scrolls (handleOnMouseMove p (Some w) 80%Q s') s' = [c]
      /\ (left c == 300 - 20)%Q
      /\ smooth c = false.
Proof.
  cbv zeta.
  split; [repeat split |].
  apply (C7_threshold_move_then_offset
           (defaults (elements 10) 4) (mkWrapper 400%Q 10%Q 300%Q)
           (mkState 3 false true (Some 50%Q) 300%Q) 50%Q 80%Q
           (handleOnMouseMove (defaults (elements 10) 4)));
    [ now right | reflexivity | reflexivity | reflexivity | reflexivity
    | reflexivity | reflexivity ].
Defined.

(** With a recorded press position other than 0, mouse-leave and
    touch-cancel close the session as a release does. *)
Lemma leave_and_cancel_close_session (p : Props) (itemWidth : Q) (ref : Ref)
      (s : State) :
  truthyNum (touchClickPosition s) = true ->
  nextState (handleOnMouseLeave p itemWidth ref s) s
  = fst (setIsMouseInside false (run (handleOnMouseUp p itemWidth ref s) s))
  /\ touchClickPosition (nextState (handleOnMouseLeave p itemWidth ref s) s) = None
  /\ isDragging (nextState (handleOnMouseLeave p itemWidth ref s) s) = false
  /\ touchClickPosition (nextState (handleOnTouchCancel p itemWidth ref s) s) = None
  /\ isDragging (nextState (handleOnTouchCancel p itemWidth ref s) s) = false.
Proof.
  intros Ht.
  unfold nextState, run, handleOnMouseLeave, handleOnTouchCancel,
    handleOnMouseUp, handleOnTouchEnd, scrollToClosestItemIndex.
  rewrite Ht, when_true.
  destruct s as [ci d mi tc sl];
    cbn [isDragging touchClickPosition currentIndex isMouseInside scrollLeft].
  destruct ref as [w |];
    [destruct (closestItemIndex p itemWidth (domScrollLeft w)) |];
    destruct (freeScroll p), d;
    repeat split; reflexivity.
Qed.

(** C5: a press at the wrapper's left edge records position 0.  After such a
    press and a drag, mouse-leave keeps the press position and the drag
    flag and performs no snap, and touch-cancel keeps the press position and
    performs no snap, while the release handlers clear the session and snap
    to index 1. *)
Theorem C5_leave_and_cancel_leak_press_at_zero :
  let p := defaults (elements 10) 4 in
  let w := wrapperAt 400 130 in
  let itemWidth := computeItemWidth (Some w) (itemsPerView p) in
  let s := exec p [(w, MouseEnter); (w, MouseDown 0%Q); (w, MouseMove 10%Q);
                   (w, MouseMove 20%Q)] initialState in
  (itemWidth == 100)%Q
  /\ (exists x : Q, touchClickPosition s = Some x /\ (x == 0)%Q)
  /\ isDragging s = true
  /\ step p w MouseLeave s
     = mkState (currentIndex s) true false (touchClickPosition s) (scrollLeft s)
  /\ scrolls (handleOnMouseLeave p itemWidth (Some w) s) s = []
  /\ step p w TouchCancel s
     = mkState (currentIndex s) false true (touchClickPosition s) (scrollLeft s)
  /\ scrolls (handleOnTouchCancel p itemWidth (Some w) s) s = []
  /\ touchClickPosition (step p w MouseUp s) = None
  /\ isDragging (step p w MouseUp s) = false
  /\ currentIndex (step p w MouseUp s) = 1
  /\ touchClickPosition (step p w TouchEnd s) = None
  /\ isDragging (step p w TouchEnd s) = false
  /\ currentIndex (step p w TouchEnd s) = 1
  /\ currentIndex s = 0.
Proof.
  cbv zeta.
  split; [reflexivity |].
  split; [eexists; split; [reflexivity | reflexivity] |].
  repeat split; vm_compute; reflexivity.
Qed.

(** ** Snap to the closest item *)

Section SnapFacts.

Variable p : Props.
Variable itemWidth : Q.
Hypothesis positive_width : (0 < itemWidth)%Q.

Lemma inject_Z_succ_le (j i : Z) :
  j + 1 <= i -> (inject_Z j + 1 <= inject_Z i)%Q.
Proof.
  intros H. change (inject_Z j + inject_Z 1 <= inject_Z i)%Q.
  rewrite <- inject_Z_plus, <- Zle_Qle. exact H.
Qed.

(** Scanning from [j <= i] with enough iterations left, over truthy
    children, the loop stops with [i] for an offset strictly left of the
    midpoint of slot [i] and with [i + 1] from the midpoint on; it stops
    either in slot [i] itself or, when the offset is the shared edge, in slot
    [i - 1]. *)
Lemma closestLoop_hit (raw : Q) (i : Z) :
  (itemWidth * inject_Z i <= raw)%Q ->
  (raw <= itemWidth * inject_Z i + itemWidth)%Q ->
  forall (fuel : nat) (j : Z),
    0 <= j <= i ->
    (Z.to_nat (i - j) < fuel)%nat ->
    (forall k : Z, j <= k <= i ->
                   truthyChild (arrayAt (Children_toArray (children p)) k) = true) ->
    closestLoop p itemWidth raw fuel j = Some (if Qgtb (itemWidth * inject_Z i + itemWidth / 2) raw
          then i else i + 1).
Proof using positive_width.
  intros Hlo Hhi.
  induction fuel as [| fuel IH]; intros j Hj Hfuel Htruthy; [lia |].
  cbn [closestLoop]. cbv zeta.
  rewrite (Htruthy j) by lia. cbn [negb].
  destruct (Z.eq_dec j i) as [-> | Hne].
  - apply Qle_bool_iff in Hlo, Hhi. rewrite Hlo, Hhi. reflexivity.
  - assert (Hsucc : (inject_Z j + 1 <= inject_Z i)%Q)
      by (apply inject_Z_succ_le; lia).
    destruct (Qle_bool (itemWidth * inject_Z j) raw
              && Qle_bool raw (itemWidth * inject_Z j + itemWidth)) eqn:Hslot.
    + apply andb_true_iff in Hslot. destruct Hslot as [_ Hr].
      apply Qle_bool_iff in Hr.
      assert (Hedge : (inject_Z j + 1 == inject_Z i)%Q) by nra.
      assert (Hji : j + 1 = i).
      { apply inject_Z_injective. rewrite inject_Z_plus. exact Hedge. }
      assert (Hraw : (raw == itemWidth * inject_Z j + itemWidth)%Q) by nra.
      assert (Hhalf : (itemWidth / 2 == itemWidth * (1 # 2))%Q) by reflexivity.
      assert (H1 : Qgtb (itemWidth * inject_Z j + itemWidth / 2) raw = false).
      { apply Qgtb_false. rewrite Hhalf. lra. }
      assert (H2 : Qgtb (itemWidth * inject_Z i + itemWidth / 2) raw = true).
      { apply Qgtb_true. rewrite Hhalf. nra. }
      rewrite H1, H2, Hji. reflexivity.
    + apply IH; [lia | lia | intros k Hk; apply Htruthy; lia].
Qed.

Lemma closestItemIndex_slot (raw : Q) (i : Z) :
  0 <= i < length p ->
  (forall k : Z, 0 <= k <= i ->
                 truthyChild (arrayAt (Children_toArray (children p)) k) = true) ->
  (itemWidth * inject_Z i <= raw)%Q ->
  (raw <= itemWidth * inject_Z i + itemWidth)%Q ->
  closestItemIndex p itemWidth raw = Some (if Qgtb (itemWidth * inject_Z i + itemWidth / 2) raw
          then i else i + 1).
Proof using positive_width.
  intros Hi Htruthy Hlo Hhi. unfold closestItemIndex.
  apply closestLoop_hit; try assumption; lia.
Qed.

End SnapFacts.

(** C3, as stated, fails on the tie: with item width 100 the offset 50 is the
    exact midpoint of slot 0, and the snap resolves to index 1, not 0. *)
Lemma C3_counterexample :
  let p := defaults (elements 3) 1 in
  let w := wrapperAt 100 50 in
  (100 * inject_Z 0 <= domScrollLeft w <= 100 * inject_Z 0 + 100)%Q
  /\ (domScrollLeft w == 100 * inject_Z 0 + 100 / 2)%Q
  /\ ~ (currentIndex
          (nextState (scrollToClosestItemIndex p 100%Q (Some w) initialState)
                     initialState) = 0).
Proof.
  cbv zeta. split; [split; vm_compute; discriminate |].
  split; [reflexivity |].
  vm_compute. discriminate.
Qed.

(** C3 (amended): for a positive item width whose slot edges and midpoints
    up to slot [i] are computed exactly (as with a whole number of pixels),
    and an offset lying in slot [[itemWidth*i, itemWidth*i + itemWidth]] of an
    item [i] (the children up to [i] being truthy), the snap resolves to [i]
    when the offset is strictly left of the slot's midpoint and to [i + 1]
    otherwise; the exact midpoint resolves to [i + 1].  It sets
    [currentIndex] and [scrollLeft] to the resolved index and its offset and
    requests a smooth scroll there. *)
Theorem C3_snap_rounds_midpoint_up :
  forall (p : Props) (itemWidth : Q) (w : Wrapper) (s : State) (i : Z),
    (0 < itemWidth)%Q ->
    0 <= i < length p ->
    (forall k : Z, 0 <= k <= i ->
                   truthyChild (arrayAt (Children_toArray (children p)) k) = true) ->
    (forall k : Z, 0 <= k <= i -> exactSlot itemWidth k) ->
    (itemWidth * inject_Z i <= domScrollLeft w)%Q ->
    (domScrollLeft w <= itemWidth * inject_Z i + itemWidth)%Q ->
    let snapTo (n : Z) : Upd :=
      (mkState n (isDragging s) (isMouseInside s) (touchClickPosition s)
               (inject_Z n * itemWidth)%Q,
       [mkScrollTo (inject_Z n * itemWidth)%Q true]) in
    ((domScrollLeft w < itemWidth * inject_Z i + itemWidth / 2)%Q ->
     run (scrollToClosestItemIndex p itemWidth (Some w) s) s = snapTo i)
    /\ ((itemWidth * inject_Z i + itemWidth / 2 <= domScrollLeft w)%Q ->
        run (scrollToClosestItemIndex p itemWidth (Some w) s) s = snapTo (i + 1)).
Proof.
  intros p iw w s i Hpos Hi Htruthy _ Hlo Hhi snapTo.
  unfold scrollToClosestItemIndex.
  rewrite (closestItemIndex_slot p iw Hpos (domScrollLeft w) i Hi Htruthy Hlo Hhi).
  split; intros H.
  - apply Qgtb_true in H. rewrite H. reflexivity.
  - apply Qgtb_false in H. rewrite H. reflexivity.
Qed.

(** Five items of width 100: offset 149 snaps to index 1, the midpoint 150 of
    slot 1 snaps to index 2.  The edges 0, 100, 200 and the midpoints 50, 150
    are doubles. *)
Lemma C3_witness :
  let p := defaults (elements 5) 2 in
  ((0 < 100)%Q /\ 0 <= 1 < length p
   /\ exactSlot 100%Q 0 /\ exactSlot 100%Q 1
   /\ (100 * inject_Z 1 <= 150)%Q /\ (150 <= 100 * inject_Z 1 + 100)%Q
   /\ (100 * inject_Z 1 + 100 / 2 <= 150)%Q)
  /\ run (scrollToClosestItemIndex p 100%Q (Some (wrapperAt 200 150)) initialState)
         initialState
     = (mkState 2 false false None (inject_Z 2 * 100)%Q,
        [mkScrollTo (inject_Z 2 * 100)%Q true])
  /\ run (scrollToClosestItemIndex p 100%Q (Some (wrapperAt 200 149)) initialState)
         initialState
     = (mkState 1 false false None (inject_Z 1 * 100)%Q,
        [mkScrollTo (inject_Z 1 * 100)%Q true]).
Proof.
  cbv zeta.
  assert (Htruthy : forall k : Z, 0 <= k <= 1 ->
            truthyChild (arrayAt (Children_toArray
                                    (children (defaults (elements 5) 2))) k) = true).
  { intros k Hk. assert (Hcases : k = 0 \/ k = 1) by lia.
    destruct Hcases as [-> | ->]; reflexivity. }
  assert (Hin : 0 <= 1 < length (defaults (elements 5) 2))
    by (vm_compute; split; [discriminate | reflexivity]).
  assert (Hwhole : forall n : Z, 0 <= n <= 1000 -> forall x : Q,
             (x == inject_Z n)%Q -> exactDouble x).
  { intros n Hn x Hx. exists n, 0. split; [| split].
    - apply Z.lt_le_trans with 1001; [lia | vm_compute; discriminate].
    - lia.
    - rewrite Hx. simpl. ring. }
  assert (Hslot0 : exactSlot 100%Q 0).
  { repeat split;
      [ apply (Hwhole 0) | apply (Hwhole 100) | apply (Hwhole 50)
      | apply (Hwhole 50) ]; try lia; reflexivity. }
  assert (Hslot1 : exactSlot 100%Q 1).
  { repeat split;
      [ apply (Hwhole 100) | apply (Hwhole 200) | apply (Hwhole 50)
      | apply (Hwhole 150) ]; try lia; reflexivity. }
  assert (Hexact : forall k : Z, 0 <= k <= 1 -> exactSlot 100%Q k).
  { intros k Hk. assert (Hcases : k = 0 \/ k = 1) by lia.
    destruct Hcases as [-> | ->]; assumption. }
  split.
  - split; [reflexivity |]. split; [exact Hin |].
    split; [exact Hslot0 |]. split; [exact Hslot1 |].
    repeat split; vm_compute; discriminate.
  - split.
    + apply (C3_snap_rounds_midpoint_up (defaults (elements 5) 2) 100%Q
               (wrapperAt 200 150) initialState 1
               eq_refl Hin Htruthy Hexact).
      * vm_compute; discriminate.
      * vm_compute; discriminate.
      * vm_compute; discriminate.
    + apply (C3_snap_rounds_midpoint_up (defaults (elements 5) 2) 100%Q
               (wrapperAt 200 149) initialState 1
               eq_refl Hin Htruthy Hexact).
      * vm_compute; discriminate.
      * vm_compute; discriminate.
      * vm_compute; reflexivity.
Defined.

(** * Further properties of the component *)

(** ** Commands: range, offsets and round trips *)

(** Any sequence of [nextItem], [previousItem] and [previousPage] calls on a
    mounted wrapper, looping or not, keeps [currentIndex] within
    [[0, length - 1]] in a valid configuration. *)
Theorem item_commands_keep_range :
  forall (p : Props) (itemWidth : Q) (w : Wrapper) (cmds : list Command)
         (s : State),
    validConfig p ->
    Forall (fun c => c = nextItem \/ c = previousItem \/ c = previousPage) cmds ->
    inRange p s ->
    inRange p (fold_left (fun s' c => nextState (c p itemWidth (Some w) s') s')
                         cmds s).
Proof.
  intros p iw w cmds. induction cmds as [| c rest IH]; intros s V Hall R.
  - exact R.
  - inversion Hall as [| ? ? Hc Hrest]; subst. cbn [fold_left].
    apply IH; try assumption.
    destruct (item_commands_in_range p iw w s V R) as [Hn [Hp Hpp]].
    destruct Hc as [-> | [-> | ->]]; assumption.
Qed.

(** Ten items shown four per view, looping: back from 0 to 9, a page back to
    5, then forward to 6 and, the window no longer fitting, to 0. *)
Lemma item_commands_keep_range_witness :
  let p := withInfiniteLoop (defaults (elements 10) 4) in
  let cmds := [previousItem; previousPage; nextItem; nextItem] in
  let run_all := fold_left (fun s' c => nextState (c p 100%Q (Some (wrapperAt 400 0)) s') s') in
  (validConfig p /\ inRange p initialState)
  /\ inRange p (run_all cmds initialState)
  /\ map (fun n => currentIndex (run_all (firstn n cmds) initialState))
         [1; 2; 3; 4]%nat = [9; 5; 6; 0].
Proof.
  cbv zeta.
  assert (V : validConfig (withInfiniteLoop (defaults (elements 10) 4)))
    by (unfold validConfig; vm_compute; split; discriminate).
  assert (R : inRange (withInfiniteLoop (defaults (elements 10) 4)) initialState)
    by (unfold inRange; vm_compute; split; [discriminate | reflexivity]).
  split; [exact (conj V R) |].
  split; [| reflexivity].
  apply (item_commands_keep_range _ 100%Q (wrapperAt 400 0) _ _ V); [| exact R].
  repeat constructor; tauto.
Defined.

(** What a command does.  On a null ref, or when its guard fails, it changes
    nothing and requests nothing.  On a mounted wrapper with its guard
    holding, the stored offset is the offset of the new index, exactly one
    smooth scroll to that offset is requested, the press position is dropped
    and the two flags are kept. *)
Theorem command_effect :
  forall (p : Props) (itemWidth : Q) (ref : Ref) (s : State)
         (gc : (Props -> State -> bool) * Command),
    In gc navCommands ->
    let s' := nextState (snd gc p itemWidth ref s) s in
    (ref = None \/ fst gc p s = false ->
     s' = s /\ scrolls (snd gc p itemWidth ref s) s = [])
    /\ (ref <> None -> fst gc p s = true ->
        scrollLeft s' = (inject_Z (currentIndex s') * itemWidth)%Q
        /\ scrolls (snd gc p itemWidth ref s) s = [mkScrollTo (scrollLeft s') true]
        /\ touchClickPosition s' = None
        /\ isDragging s' = isDragging s
        /\ isMouseInside s' = isMouseInside s).
Proof.
  intros p iw ref s gc Hin s'. subst s'. split.
  - intros [-> | G]; unfold nextState, scrolls.
    + rewrite (unmounted_noop p iw s gc Hin). split; reflexivity.
    + rewrite (guard_fails_noop p iw s ref gc Hin G). split; reflexivity.
  - intros Href G. destruct ref as [w |]; [| contradiction].
    revert G. unfold navCommands in Hin; simpl in Hin.
    destruct Hin as [<- | [<- | [<- | [<- | []]]]]; simpl; intros G;
      unfold scrolls, nextState;
      [ rewrite nextItem_run | rewrite previousItem_run
      | rewrite nextPage_run | rewrite previousPage_run ];
      rewrite G; repeat split.
Qed.

(** Ten items, four per view, not looping, a press pending at index 0: the
    two forward commands act, the two backward commands fail their guard and
    change nothing; on a null ref none of the four acts. *)
Lemma command_effect_witness :
  let p := defaults (elements 10) 4 in
  let s := mkState 0 true true (Some 12%Q) 0%Q in
  let ref := Some (wrapperAt 400 0) in
  Forall (fun gc : (Props -> State -> bool) * Command =>
            In gc navCommands
            /\ run (snd gc p 100%Q None s) s = (s, []))
         navCommands
  /\ (nextItemGuard p s = true /\ nextPageGuard p s = true
      /\ previousItemGuard p s = false /\ previousPageGuard p s = false)
  /\ run (nextItem p 100%Q ref s) s
     = (mkState 1 true true None (inject_Z 1 * 100)%Q,
        [mkScrollTo (inject_Z 1 * 100)%Q true])
  /\ run (nextPage p 100%Q ref s) s
     = (mkState 4 true true None (inject_Z 4 * 100)%Q,
        [mkScrollTo (inject_Z 4 * 100)%Q true])
  /\ run (previousItem p 100%Q ref s) s = (s, [])
  /\ run (previousPage p 100%Q ref s) s = (s, []).
Proof.
  cbv zeta.
  pose (p := defaults (elements 10) 4).
  pose (s := mkState 0 true true (Some 12%Q) 0%Q).
  pose (ref := Some (wrapperAt 400 0)).
  assert (Hnull : forall gc, In gc navCommands ->
            run (snd gc p 100%Q None s) s = (s, [])).
  { intros gc Hin.
    destruct (proj1 (command_effect p 100%Q None s gc Hin) (or_introl eq_refl))
      as [Hs Hq].
    unfold nextState, scrolls in Hs, Hq.
    destruct (run (snd gc p 100%Q None s) s) as [s1 q1]. cbn in Hs, Hq.
    now subst. }
  assert (Hidle : forall gc, In gc navCommands -> fst gc p s = false ->
            run (snd gc p 100%Q ref s) s = (s, [])).
  { intros gc Hin G.
    destruct (proj1 (command_effect p 100%Q ref s gc Hin) (or_intror G))
      as [Hs Hq].
    unfold nextState, scrolls in Hs, Hq.
    destruct (run (snd gc p 100%Q ref s) s) as [s1 q1]. cbn in Hs, Hq.
    now subst. }
  assert (Hacts : forall gc, In gc navCommands -> fst gc p s = true ->
            touchClickPosition (nextState (snd gc p 100%Q ref s) s) = None).
  { intros gc Hin G.
    apply (proj2 (command_effect p 100%Q ref s gc Hin)
                 ltac:(discriminate) G). }
  split.
  - unfold navCommands.
    repeat (apply Forall_cons;
            [ split; [simpl; tauto | apply Hnull; simpl; tauto] | ]).
    apply Forall_nil.
  - split; [repeat split |].
    split; [reflexivity |]. split; [reflexivity |].
    split.
    + exact (Hidle (previousItemGuard, previousItem)
                   ltac:(simpl; tauto) eq_refl).
    + exact (Hidle (previousPageGuard, previousPage)
                   ltac:(simpl; tauto) eq_refl).
Defined.

(** [nextItem] undoes [previousItem] on every window position, the wrap of a
    looping carousel included; [previousPage] undoes an advancing [nextPage]. *)
Theorem forward_and_backward_cancel :
  forall (p : Props) (itemWidth : Q) (w : Wrapper) (s : State),
    1 <= itemsPerView p ->
    0 <= currentIndex s ->
    let back := nextState (previousItem p itemWidth (Some w) s) s in
    let fwd := nextState (nextPage p itemWidth (Some w) s) s in
    (previousItemGuard p s = true ->
     currentIndex s <= length p - itemsPerView p ->
     currentIndex (nextState (nextItem p itemWidth (Some w) back) back)
     = currentIndex s)
    /\ (jsAddLt (currentIndex s) (jsRem (length p) (itemsPerView p)) (length p) = true ->
        currentIndex (nextState (previousPage p itemWidth (Some w) fwd) fwd)
        = currentIndex s).
Proof.
  intros p iw w s Hipv Hcur back fwd. subst back fwd. unfold nextState.
  split.
  - intros G Hfit. rewrite previousItem_run, G. cbv zeta. cbn [fst].
    rewrite nextItem_run. unfold nextItemGuard, previousItemGuard in *.
    cbn [currentIndex].
    destruct (isRepeating p) eqn:R; cbn [orb] in *.
    + destruct (Z.ltb_spec 0 (currentIndex s)).
      * destruct (Z.ltb_spec (currentIndex s - 1 + itemsPerView p) (length p));
          cbn [fst currentIndex]; lia.
      * destruct (Z.ltb_spec (length p - 1 + itemsPerView p) (length p));
          cbn [fst currentIndex]; lia.
    + rewrite G. apply Z.ltb_lt in G.
      destruct (Z.leb_spec (currentIndex s - 1 + itemsPerView p) (length p));
        [| lia].
      destruct (Z.ltb_spec (currentIndex s - 1 + itemsPerView p) (length p));
        cbn [fst currentIndex]; lia.
  - intros A. rewrite nextPage_run. unfold nextPageGuard.
    rewrite A, orb_true_r. cbv zeta. cbn [fst].
    rewrite previousPage_run. unfold previousPageGuard. cbn [currentIndex].
    destruct (Z.leb_spec (itemsPerView p) (currentIndex s + itemsPerView p));
      [| lia].
    rewrite orb_true_r.
    destruct (Z.leb_spec 0 (currentIndex s + itemsPerView p - itemsPerView p));
      cbn [fst currentIndex]; lia.
Qed.

(** Looping over 10 items shown 4 per view: from index 0 back to 9 and
    forward to 0 again; from index 4 a page forward to 8 and back to 4. *)
Lemma forward_and_backward_cancel_witness :
  let p := withInfiniteLoop (defaults (elements 10) 4) in
  let ref := Some (wrapperAt 400 0) in
  let s0 := initialState in
  let s4 := mkState 4 false false None 400%Q in
  (1 <= itemsPerView p /\ 0 <= currentIndex s0
   /\ previousItemGuard p s0 = true
   /\ currentIndex s0 <= length p - itemsPerView p)
  /\ currentIndex (nextState (previousItem p 100%Q ref s0) s0) = 9
  /\ currentIndex
       (nextState (nextItem p 100%Q ref (nextState (previousItem p 100%Q ref s0) s0))
                  (nextState (previousItem p 100%Q ref s0) s0)) = 0
  /\ currentIndex
       (nextState (previousPage p 100%Q ref (nextState (nextPage p 100%Q ref s4) s4))
                  (nextState (nextPage p 100%Q ref s4) s4)) = 4.
Proof.
  cbv zeta.
  split; [repeat split; vm_compute; discriminate |].
  split; [reflexivity |].
  split.
  - apply (forward_and_backward_cancel
             (withInfiniteLoop (defaults (elements 10) 4)) 100%Q
             (wrapperAt 400 0) initialState);
      vm_compute; try reflexivity; discriminate.
  - apply (forward_and_backward_cancel
             (withInfiniteLoop (defaults (elements 10) 4)) 100%Q
             (wrapperAt 400 0) (mkState 4 false false None 400%Q));
      vm_compute; try reflexivity; discriminate.
Defined.

(** ** Arrow buttons *)

(** Presses, moves and mouse-enter leave [currentIndex] alone. *)
Lemma pointer_keeps_index (p : Props) (itemWidth : Q) (ref : Ref)
      (e : Event) (s : State) :
  match e with
  | TouchStart _ | TouchMove _ | MouseEnter | MouseDown _ | MouseMove _ => True
  | _ => False
  end ->
  currentIndex (nextState (handle p itemWidth ref e s) s) = currentIndex s.
Proof.
  destruct e; try contradiction; intros _; unfold nextState; cbn [handle];
    unfold handleOnTouchStart, handleOnMouseDown, handleOnMouseEnter,
      handleOnTouchMove, handleOnMouseMove;
    destruct s as [ci d mi [o |] sl], ref as [w |];
    cbn [touchClickPosition isDragging]; try reflexivity; cbv zeta;
    generalize (walkOf p w o pageX); intros walk;
    destruct d, (Qgtb (Qabs walk) (minDragDistance p)); reflexivity.
Qed.

(** A click on a rendered arrow keeps [currentIndex] a valid index unless the
    carousel both repeats and advances by pages. *)
Lemma click_in_range (p : Props) (w : Wrapper) (e : Event) (s : State) :
  validConfig p ->
  isRepeating p = false \/ advancePagesOnAutoScroll p = false ->
  e = ClickNext \/ e = ClickPrevious ->
  inRange p s -> inRange p (step p w e s).
Proof.
  intros V Hmode He R. unfold step.
  pose proof (item_commands_in_range p
                (computeItemWidth (Some w) (itemsPerView p)) w s V R)
    as [Hn [Hp Hpp]].
  destruct He as [-> | ->]; cbn [handle].
  - destruct (nextButtonShown p s) eqn:Hshown; [| exact R].
    destruct (advancePagesOnAutoScroll p) eqn:Hadv; [| exact Hn].
    destruct Hmode as [Hrep | Habs]; [| discriminate Habs].
    unfold nextButtonShown in Hshown. rewrite Hrep in Hshown.
    apply andb_true_iff in Hshown. destruct Hshown as [_ Hlt].
    cbn [orb] in Hlt. apply Z.ltb_lt in Hlt.
    unfold inRange, nextState in *. rewrite nextPage_run.
    unfold validConfig in V.
    destruct (nextPageGuard p s); [| exact R]. cbv zeta.
    destruct (jsAddLt (currentIndex s) (jsRem (length p) (itemsPerView p))
                      (length p)); cbn [fst currentIndex]; lia.
  - destruct (previousButtonShown p s); [| exact R].
    destruct (advancePagesOnAutoScroll p); assumption.
Qed.

(** Driven by arrow clicks, presses, moves and mouse-enter only (no release,
    no autoplay), a validly configured carousel that does not both repeat and
    advance by pages keeps [currentIndex] within [[0, length - 1]]. *)
Theorem clicks_and_pointer_keep_range :
  forall (p : Props) (trace : list (Wrapper * Event)) (s : State),
    validConfig p ->
    isRepeating p = false \/ advancePagesOnAutoScroll p = false ->
    Forall clickOrPointer trace ->
    inRange p s ->
    inRange p (exec p trace s).
Proof.
  intros p trace. induction trace as [| [w e] rest IH]; intros s V Hmode Hall R.
  - exact R.
  - inversion Hall as [| ? ? He Hrest]; subst. cbn [exec].
    apply IH; try assumption.
    unfold clickOrPointer in He; cbn [snd] in He.
    destruct e; try contradiction;
      try (apply click_in_range; auto; fail);
      unfold inRange, step;
      rewrite pointer_keeps_index by exact I; exact R.
Qed.

(** Ten items, four per view, not looping: next, next, a press, previous. *)
Lemma clicks_and_pointer_keep_range_witness :
  let p := defaults (elements 10) 4 in
  let w := wrapperAt 400 0 in
  let trace := [(w, ClickNext); (w, ClickNext); (w, MouseDown 5%Q);
                (w, ClickPrevious)] in
  (validConfig p /\ isRepeating p = false /\ Forall clickOrPointer trace
   /\ inRange p initialState)
  /\ inRange p (exec p trace initialState)
  /\ currentIndex (exec p trace initialState) = 4.
Proof.
  cbv zeta.
  assert (V : validConfig (defaults (elements 10) 4))
    by (unfold validConfig; vm_compute; split; discriminate).
  assert (R : inRange (defaults (elements 10) 4) initialState)
    by (unfold inRange; vm_compute; split; [discriminate | reflexivity]).
  assert (T : Forall clickOrPointer
                [(wrapperAt 400 0, ClickNext); (wrapperAt 400 0, ClickNext);
                 (wrapperAt 400 0, MouseDown 5%Q);
                 (wrapperAt 400 0, ClickPrevious)])
    by (repeat constructor).
  split; [exact (conj V (conj eq_refl (conj T R))) |].
  split; [| reflexivity].
  exact (clicks_and_pointer_keep_range _ _ _ V (or_introl eq_refl) T R).
Defined.

(** Without looping, a rendered next arrow always moves forward.  A rendered
    previous arrow moves backward, except when it advances by pages from an
    index below [itemsPerView]: then the click does nothing. *)
Theorem rendered_arrows_progress :
  forall (p : Props) (w : Wrapper) (s : State),
    validConfig p ->
    isRepeating p = false ->
    (nextButtonShown p s = true ->
     currentIndex s < currentIndex (step p w ClickNext s))
    /\ (previousButtonShown p s = true ->
        if advancePagesOnAutoScroll p && (currentIndex s <? itemsPerView p)
        then step p w ClickPrevious s = s
        else currentIndex (step p w ClickPrevious s) < currentIndex s).
Proof.
  intros p w s V Hrep. unfold validConfig in V. unfold step, nextState.
  split; intros Hshown; cbn [handle]; rewrite Hshown.
  - unfold nextButtonShown in Hshown. rewrite Hrep in Hshown.
    apply andb_true_iff in Hshown. destruct Hshown as [_ Hlt].
    cbn [orb] in Hlt. apply Z.ltb_lt in Hlt.
    destruct (advancePagesOnAutoScroll p).
    + rewrite nextPage_run. unfold nextPageGuard, jsRem.
      rewrite Hrep. cbn [orb].
      destruct (Z.eqb_spec (itemsPerView p) 0) as [E | _]; [lia |].
      cbn [jsAddLt].
      assert (Hrem : 0 <= Z.rem (length p) (itemsPerView p) < itemsPerView p)
        by (apply Z.rem_bound_pos; lia).
      destruct (Z.ltb_spec (currentIndex s + Z.rem (length p) (itemsPerView p))
                           (length p)); [| lia].
      cbn [fst currentIndex]. lia.
    + rewrite nextItem_run. unfold nextItemGuard. rewrite Hrep. cbn [orb].
      destruct (Z.leb_spec (currentIndex s + itemsPerView p) (length p)); [| lia].
      destruct (Z.ltb_spec (currentIndex s + itemsPerView p) (length p)); [| lia].
      cbn [fst currentIndex]. lia.
  - unfold previousButtonShown in Hshown. rewrite Hrep in Hshown.
    apply andb_true_iff in Hshown. destruct Hshown as [_ Hlt].
    cbn [orb] in Hlt. apply Z.ltb_lt in Hlt.
    destruct (advancePagesOnAutoScroll p); cbn [andb].
    + rewrite previousPage_run. unfold previousPageGuard.
      rewrite Hrep. cbn [orb].
      destruct (Z.ltb_spec (currentIndex s) (itemsPerView p));
        destruct (Z.leb_spec (itemsPerView p) (currentIndex s)); try lia.
      * reflexivity.
      * destruct (Z.leb_spec 0 (currentIndex s - itemsPerView p)); [| lia].
        cbn [fst currentIndex]. lia.
    + rewrite previousItem_run. unfold previousItemGuard.
      rewrite Hrep. cbn [orb].
      destruct (Z.ltb_spec 0 (currentIndex s)); [| lia].
      cbn [fst currentIndex]. lia.
Qed.

(** Ten items, four per view, paging, not looping, at index 2: the next
    arrow leads to 6, the previous arrow is rendered but does nothing. *)
Lemma rendered_arrows_progress_witness :
  let p := defaults (elements 10) 4 in
  let w := wrapperAt 400 200 in
  let s := mkState 2 false false None 200%Q in
  (validConfig p /\ isRepeating p = false
   /\ nextButtonShown p s = true /\ previousButtonShown p s = true)
  /\ currentIndex s < currentIndex (step p w ClickNext s)
  /\ step p w ClickPrevious s = s.
Proof.
  cbv zeta.
  assert (V : validConfig (defaults (elements 10) 4))
    by (unfold validConfig; vm_compute; split; discriminate).
  split; [exact (conj V (conj eq_refl (conj eq_refl eq_refl))) |].
  destruct (rendered_arrows_progress (defaults (elements 10) 4)
              (wrapperAt 400 200) (mkState 2 false false None 200%Q)
              V eq_refl) as [Hnext Hprev].
  split.
  - exact (Hnext eq_refl).
  - exact (Hprev eq_refl).
Defined.

(** ** Snap: nearest slot, stability and misses *)

Section SnapSoundness.

Variable p : Props.
Variable itemWidth : Q.



End SnapSoundness.








(** Mouse-up and touch-end always close the session, whatever the state, the
    ref and the props: the press position is cleared, the drag flag is
    lowered and [isMouseInside] is kept. *)
Theorem release_closes_session :
  forall (p : Props) (itemWidth : Q) (ref : Ref) (s : State),
    let up := nextState (handleOnMouseUp p itemWidth ref s) s in
    let ended := nextState (handleOnTouchEnd p itemWidth ref s) s in
    touchClickPosition up = None /\ isDragging up = false
    /\ isMouseInside up = isMouseInside s
    /\ touchClickPosition ended = None /\ isDragging ended = false
    /\ isMouseInside ended = isMouseInside s
    /\ up = ended.
Proof.
  intros p iw ref s. cbv zeta.
  unfold nextState, run, handleOnMouseUp, handleOnTouchEnd,
    scrollToClosestItemIndex.
  destruct s as [ci d mi tc sl].
  destruct ref as [w |];
    [destruct (closestItemIndex p iw (domScrollLeft w)) |];
    destruct (freeScroll p), d; repeat split; reflexivity.
Qed.

(** With a non-zero recorded press, twenty pixels into a drag. *)
Lemma leave_and_cancel_close_session_witness :
  let p := defaults (elements 10) 4 in
  let ref := Some (wrapperAt 400 130) in
  let s := mkState 0 true true (Some 7%Q) 130%Q in
  truthyNum (touchClickPosition s) = true
  /\ touchClickPosition (nextState (handleOnMouseLeave p 100%Q ref s) s) = None
  /\ isDragging (nextState (handleOnMouseLeave p 100%Q ref s) s) = false
  /\ touchClickPosition (nextState (handleOnTouchCancel p 100%Q ref s) s) = None
  /\ isDragging (nextState (handleOnTouchCancel p 100%Q ref s) s) = false.
Proof.
  cbv zeta. split; [reflexivity |].
  exact (proj2 (leave_and_cancel_close_session
                  (defaults (elements 10) 4) 100%Q
                  (Some (wrapperAt 400 130))
                  (mkState 0 true true (Some 7%Q) 130%Q) eq_refl)).
Defined.

(** ** Press, then move *)

(** A press (mouse-down or touch-start) on a mounted wrapper records the
    pointer position relative to the wrapper and the wrapper's scroll offset,
    and keeps the index and the drag flag.  When the two relative positions,
    their difference and its product with the sensitivity are computed
    exactly (as with whole-pixel coordinates and the default sensitivity),
    the first move after the press raises [isDragging] exactly when
    [|(pageX1 - pageX0) * scrollSensitivity|] exceeds [minDragDistance],
    whatever the wrapper's offset in the page. *)
Theorem press_then_move :
  forall (p : Props) (w : Wrapper) (s : State) (pageX0 pageX1 : Q)
         (press move : Q -> Event),
    (press = MouseDown \/ press = TouchStart) ->
    (move = MouseMove \/ move = TouchMove) ->
    isDragging s = false ->
    exactDouble (pageX0 - offsetLeft w) ->
    exactDouble (pageX1 - offsetLeft w) ->
    exactDouble (pageX1 - offsetLeft w - (pageX0 - offsetLeft w)) ->
    exactDouble ((pageX1 - offsetLeft w - (pageX0 - offsetLeft w))
                 * scrollSensitivity p) ->
    let pressed := step p w (press pageX0) s in
    pressed = mkState (currentIndex s) false (isMouseInside s)
                      (Some (pageX0 - offsetLeft w)%Q) (domScrollLeft w)
    /\ (isDragging (step p w (move pageX1) pressed) = true
        <-> (minDragDistance p
             < Qabs ((pageX1 - pageX0) * scrollSensitivity p))%Q).
Proof.
  intros p w s x0 x1 press move Hpress Hmove Hd _ _ _ _ pressed.
  assert (Hpressed : pressed = mkState (currentIndex s) false (isMouseInside s)
                                       (Some (x0 - offsetLeft w)%Q)
                                       (domScrollLeft w)).
  { subst pressed. destruct s as [ci d mi tc sl]. cbn in Hd. subst d.
    destruct Hpress as [-> | ->]; reflexivity. }
  split; [exact Hpressed |].
  assert (Hwalk : (walkOf p w (x0 - offsetLeft w) x1
                   == (x1 - x0) * scrollSensitivity p)%Q)
    by (unfold walkOf; cbv zeta; ring).
  rewrite <- Hwalk, <- Qgtb_true.
  rewrite Hpressed. unfold step, nextState.
  destruct Hmove as [-> | ->]; cbn [handle].
  - rewrite (move_run p w x1 (x0 - offsetLeft w)%Q _ (handleOnMouseMove p));
      [| now right | reflexivity].
    cbn [fst isDragging orb]. reflexivity.
  - rewrite (move_run p w x1 (x0 - offsetLeft w)%Q _ (handleOnTouchMove p));
      [| now left | reflexivity].
    cbn [fst isDragging orb]. reflexivity.
Qed.

(** Pressed at page position 120 on a wrapper 100 pixels into the page: a
    move to 123 starts a drag with the default threshold 2.  The relative
    positions 20 and 23 and the walk 3 are whole numbers. *)
Lemma press_then_move_witness :
  let p := defaults (elements 10) 4 in
  let w := mkWrapper 400%Q 100%Q 300%Q in
  let s := mkState 3 false true None 300%Q in
  (isDragging s = false
   /\ exactDouble (120 - offsetLeft w) /\ exactDouble (123 - offsetLeft w)
   /\ exactDouble (123 - offsetLeft w - (120 - offsetLeft w))
   /\ exactDouble ((123 - offsetLeft w - (120 - offsetLeft w))
                   * scrollSensitivity p))
  /\ step p w (TouchStart 120%Q) s
     = mkState 3 false true (Some (120 - 100)%Q) 300%Q
  /\ isDragging (step p w (TouchMove 123%Q) (step p w (TouchStart 120%Q) s)) = true.
Proof.
  cbv zeta.
  assert (Hwhole : forall n : Z, 0 <= n <= 1000 -> forall x : Q,
             (x == inject_Z n)%Q -> exactDouble x).
  { intros n Hn x Hx. exists n, 0. split; [| split].
    - apply Z.lt_le_trans with 1001; [lia | vm_compute; discriminate].
    - lia.
    - rewrite Hx. simpl. ring. }
  assert (H20 : exactDouble (120 - offsetLeft (mkWrapper 400%Q 100%Q 300%Q)))
    by (apply (Hwhole 20); [lia | reflexivity]).
  assert (H23 : exactDouble (123 - offsetLeft (mkWrapper 400%Q 100%Q 300%Q)))
    by (apply (Hwhole 23); [lia | reflexivity]).
  assert (H3 : exactDouble (123 - offsetLeft (mkWrapper 400%Q 100%Q 300%Q)
                            - (120 - offsetLeft (mkWrapper 400%Q 100%Q 300%Q))))
    by (apply (Hwhole 3); [lia | reflexivity]).
  assert (Hw : exactDouble
                 ((123 - offsetLeft (mkWrapper 400%Q 100%Q 300%Q)
                   - (120 - offsetLeft (mkWrapper 400%Q 100%Q 300%Q)))
                  * scrollSensitivity (defaults (elements 10) 4)))
    by (apply (Hwhole 3); [lia | reflexivity]).
  split; [exact (conj eq_refl (conj H20 (conj H23 (conj H3 Hw)))) |].
  destruct (press_then_move (defaults (elements 10) 4)
              (mkWrapper 400%Q 100%Q 300%Q)
              (mkState 3 false true None 300%Q) 120%Q 123%Q
              TouchStart TouchMove (or_intror eq_refl) (or_intror eq_refl)
              eq_refl H20 H23 H3 Hw) as [Hpressed Hdrag].
  split; [exact Hpressed |].
  apply Hdrag. reflexivity.
Defined.

(** ** Extra items of a looping carousel *)

Lemma pushLoop_length {A : Type} (item : Z -> A) (fuel : nat) (index : Z) :
  List.length (pushLoop item fuel index) = fuel.
Proof.
  revert index. induction fuel as [| fuel IH]; intros index; [reflexivity |].
  cbn [pushLoop List.length]. now rewrite IH.
Qed.

Lemma pushLoop_nth {A : Type} (item : Z -> A) (fuel : nat) :
  forall (index : Z) (k : nat),
    nth_error (pushLoop item fuel index) k
    = if (k <? fuel)%nat then Some (item (index + Z.of_nat k)) else None.
Proof.
  induction fuel as [| fuel IH]; intros index k.
  - destruct k; reflexivity.
  - destruct k as [| k]; cbn [pushLoop nth_error].
    + cbn. f_equal. f_equal. lia.
    + rewrite IH. change (S k <? S fuel)%nat with (k <? fuel)%nat.
      destruct (k <? fuel)%nat; [| reflexivity].
      f_equal. f_equal. lia.
Qed.

Lemma arrayAt_of_nat {A : Type} (l : list A) (k : nat) :
  arrayAt l (Z.of_nat k) = nth_error l k.
Proof.
  unfold arrayAt. destruct (Z.ltb_spec (Z.of_nat k) 0); [lia |].
  now rewrite Nat2Z.id.
Qed.

(** When no child is an empty node and [0 <= itemsPerView <= length], the
    extra next items are the first [itemsPerView] children and the extra
    previous items are the last [itemsPerView] children, both in document
    order. *)
Lemma extra_items_first_last :
  forall p : Props,
    Children_toArray (children p) = children p ->
    0 <= itemsPerView p <= length p ->
    extraNextItems p
    = map Some (firstn (Z.to_nat (itemsPerView p)) (children p))
    /\ extraPreviousItems p
       = map Some (skipn (Z.to_nat (length p - itemsPerView p)) (children p)).
Proof.
  intros p Harr Hipv.
  unfold extraNextItems, extraPreviousItems. rewrite Harr.
  unfold length, Children_count in *.
  set (l := children p) in *. set (n := Z.to_nat (itemsPerView p)).
  assert (Hn : (n <= List.length l)%nat) by (subst n; lia).
  split; apply nth_error_ext; intros k.
  - rewrite pushLoop_nth, nth_error_map, nth_error_firstn.
    destruct (Nat.ltb_spec k n); [| reflexivity].
    cbn [Z.add]. rewrite arrayAt_of_nat.
    destruct (nth_error l k) eqn:E; [reflexivity |].
    apply nth_error_None in E. lia.
  - rewrite nth_error_rev, pushLoop_length, nth_error_map, nth_error_skipn.
    replace (Z.to_nat (Z.of_nat (List.length l) - itemsPerView p))
      with (List.length l - n)%nat by (subst n; lia).
    destruct (Nat.ltb_spec k n) as [Hk | Hk].
    + rewrite pushLoop_nth.
      destruct (Nat.ltb_spec (n - S k) n); [| lia].
      replace (Z.of_nat (List.length l) - 1 - (0 + Z.of_nat (n - S k)))
        with (Z.of_nat (List.length l - n + k)) by lia.
      rewrite arrayAt_of_nat.
      destruct (nth_error l (List.length l - n + k)) eqn:E; [reflexivity |].
      apply nth_error_None in E. lia.
    + destruct (nth_error l (List.length l - n + k)) eqn:E; [| reflexivity].
      assert (Hlt : (List.length l - n + k < List.length l)%nat)
        by (apply nth_error_Some; congruence).
      lia.
Qed.

(** The extra items and the markup of the content, when no child is an empty
    node and [itemsPerView >= 0].  If [itemsPerView <= length], the extra
    next items are the first and the extra previous items the last
    [itemsPerView] children, in document order.  The conjunct
    [length > itemsPerView] of the render condition is implied by
    [isRepeating].  The content is the last [itemsPerView] children, all
    children and the first [itemsPerView] children when the extra views are
    requested on a repeating carousel, and the children alone otherwise. *)
Theorem rendered_items_layout :
  forall (p : Props) (addExtraFirstAndLastView : bool),
    Children_toArray (children p) = children p ->
    0 <= itemsPerView p ->
    (itemsPerView p <= length p ->
     extraNextItems p
     = map Some (firstn (Z.to_nat (itemsPerView p)) (children p))
     /\ extraPreviousItems p
        = map Some (skipn (Z.to_nat (length p - itemsPerView p)) (children p)))
    /\ extrasShown p addExtraFirstAndLastView
       = addExtraFirstAndLastView && isRepeating p
    /\ renderedItems p addExtraFirstAndLastView
       = if addExtraFirstAndLastView && isRepeating p
         then map Some (skipn (Z.to_nat (length p - itemsPerView p)) (children p)
                        ++ children p
                        ++ firstn (Z.to_nat (itemsPerView p)) (children p))
         else map Some (children p).
Proof.
  intros p a Harr Hipv.
  assert (Hshown : extrasShown p a = a && isRepeating p).
  { unfold extrasShown, isRepeating.
    destruct (itemsPerView p <? length p), a, (infiniteLoop p); reflexivity. }
  split; [intros Hle; exact (extra_items_first_last p Harr (conj Hipv Hle)) |].
  split; [exact Hshown |].
  unfold renderedItems. rewrite Hshown.
  destruct (a && isRepeating p) eqn:E; [| now rewrite app_nil_r].
  apply andb_true_iff in E. destruct E as [_ Hrep].
  unfold isRepeating in Hrep. apply andb_true_iff in Hrep.
  destruct Hrep as [_ Hlt]. apply Z.ltb_lt in Hlt.
  destruct (extra_items_first_last p Harr (conj Hipv (Z.lt_le_incl _ _ Hlt)))
    as [Hnext Hprev].
  rewrite Hnext, Hprev, !map_app. reflexivity.
Qed.

(** Five children shown two per view, looping with the extra views. *)
Lemma rendered_items_layout_witness :
  let p := withInfiniteLoop
             (defaults [Text "a"; Text "b"; Element; Num 4; Text "e"] 2) in
  (Children_toArray (children p) = children p /\ 0 <= itemsPerView p)
  /\ renderedItems p true
     = map Some [Num 4; Text "e";
                 Text "a"; Text "b"; Element; Num 4; Text "e";
                 Text "a"; Text "b"].
Proof.
  cbv zeta.
  assert (Hipv : 0 <= itemsPerView
                        (withInfiniteLoop
                           (defaults [Text "a"; Text "b"; Element; Num 4; Text "e"] 2)))
    by (vm_compute; discriminate).
  split; [exact (conj eq_refl Hipv) |].
  exact (proj2 (proj2 (rendered_items_layout
                         (withInfiniteLoop
                            (defaults [Text "a"; Text "b"; Element; Num 4; Text "e"] 2))
                         true eq_refl Hipv))).
Defined.

(** ** Indicator dots *)

Module DotFacts.
Import Indicators.

Lemma classify_active (index currentIndex len : Z) :
  classify index currentIndex len = active <-> currentIndex = index.
Proof.
  unfold classify.
  destruct (Z.eqb_spec currentIndex index) as [E | E]; [tauto |].
  split; [| contradiction].
  repeat match goal with
         | |- context [if ?b then _ else _] => destruct b
         end; discriminate.
Qed.

Lemma default_name_active (c : DotClass) :
  String.eqb (className None c) "dots-active" = true <-> c = active.
Proof. destruct c; cbn; split; congruence. Qed.

Lemma dotsFrom_indices (names : option ClassNames) (currentIndex len : Z)
      (fuel : nat) :
  forall index : Z,
    map fst (dotsFrom names currentIndex len fuel index)
    = map (fun k => index + Z.of_nat k) (seq 0 fuel).
Proof.
  induction fuel as [| fuel IH]; intros index; [reflexivity |].
  cbn [dotsFrom map seq fst]. f_equal; [lia |].
  rewrite IH, <- seq_shift, map_map.
  apply map_ext. intros k. lia.
Qed.

Lemma dotsFrom_active (currentIndex len : Z) (fuel : nat) :
  forall index : Z,
    List.length (filter isActiveDot (dotsFrom None currentIndex len fuel index))
    = if (index <=? currentIndex) && (currentIndex <? index + Z.of_nat fuel)
      then 1%nat else 0%nat.
Proof.
  induction fuel as [| fuel IH]; intros index.
  - cbn [dotsFrom filter List.length].
    destruct (Z.leb_spec index currentIndex),
             (Z.ltb_spec currentIndex (index + Z.of_nat 0));
      cbn [andb]; try reflexivity; lia.
  - cbn [dotsFrom filter]. unfold isActiveDot at 1. cbn [snd].
    destruct (String.eqb (className None (classify index currentIndex len))
                         "dots-active") eqn:E.
    + apply default_name_active, classify_active in E. subst index.
      cbn [List.length]. rewrite IH.
      destruct (Z.leb_spec (currentIndex + 1) currentIndex); [lia |].
      destruct (Z.leb_spec currentIndex currentIndex); [| lia].
      destruct (Z.ltb_spec currentIndex (currentIndex + Z.of_nat (S fuel)));
        [reflexivity | lia].
    + assert (Hne : currentIndex <> index).
      { intros Heq. apply classify_active with (len := len) in Heq.
        apply default_name_active in Heq. congruence. }
      rewrite IH.
      destruct (Z.leb_spec (index + 1) currentIndex),
               (Z.ltb_spec currentIndex (index + 1 + Z.of_nat fuel)),
               (Z.leb_spec index currentIndex),
               (Z.ltb_spec currentIndex (index + Z.of_nat (S fuel)));
        cbn [andb]; try reflexivity; lia.
Qed.

(** [renderDots] emits one dot per index [0 .. length - 1], in order (none
    when [length <= 0]); with the default class names exactly one of them is
    active when [currentIndex] is one of these indices, and none otherwise. *)
Theorem renderDots_indices_and_active :
  forall (names : option ClassNames) (currentIndex len : Z),
    map fst (renderDots names currentIndex len)
    = map Z.of_nat (seq 0 (Z.to_nat len))
    /\ List.length (filter isActiveDot (renderDots None currentIndex len))
       = if (0 <=? currentIndex) && (currentIndex <? len)
         then 1%nat else 0%nat.
Proof.
  intros names cur len. unfold renderDots. split.
  - rewrite dotsFrom_indices. apply map_ext. intros k. lia.
  - rewrite dotsFrom_active.
    destruct (Z.leb_spec 0 cur); cbn [andb]; [| reflexivity].
    destruct (Z.ltb_spec cur (0 + Z.of_nat (Z.to_nat len))),
             (Z.ltb_spec cur len); try reflexivity; lia.
Qed.

(** The carousel asks for [length + 1 - itemsPerView] dots.  On a repeating
    carousel showing at least two items per view, [previousItem] at index 0
    wraps to [length - 1], an index for which the indicator has no dot: no
    dot is active. *)
Theorem previous_wrap_leaves_no_active_dot :
  forall (p : Props) (itemWidth : Q) (w : Wrapper) (s : State),
    isRepeating p = true ->
    2 <= itemsPerView p ->
    currentIndex s = 0 ->
    let s' := nextState (previousItem p itemWidth (Some w) s) s in
    currentIndex s' = length p - 1
    /\ indicatorCount p <= currentIndex s'
    /\ filter isActiveDot (renderDots None (currentIndex s') (indicatorCount p))
       = [].
Proof.
  intros p iw w s Hrep Hipv Hcur s'.
  assert (Hs' : currentIndex s' = length p - 1).
  { subst s'. unfold nextState. rewrite previousItem_run.
    unfold previousItemGuard. rewrite Hrep, Hcur. reflexivity. }
  assert (Hout : indicatorCount p <= currentIndex s')
    by (rewrite Hs'; unfold indicatorCount; lia).
  split; [exact Hs' |]. split; [exact Hout |].
  apply length_zero_iff_nil. unfold renderDots. rewrite dotsFrom_active.
  destruct (Z.leb_spec 0 (currentIndex s')); cbn [andb]; [| reflexivity].
  destruct (Z.ltb_spec (currentIndex s')
                       (0 + Z.of_nat (Z.to_nat (indicatorCount p))));
    [lia | reflexivity].
Qed.

(** Looping over 6 items shown 3 per view: four dots, index 5 after the
    wrap. *)
Lemma previous_wrap_leaves_no_active_dot_witness :
  let p := withInfiniteLoop (defaults (elements 6) 3) in
  let s' := nextState (previousItem p 100%Q (Some (wrapperAt 300 0)) initialState)
                      initialState in
  (isRepeating p = true /\ 2 <= itemsPerView p /\ currentIndex initialState = 0)
  /\ currentIndex s' = 5
  /\ map snd (renderDots None (currentIndex s') (indicatorCount p))
     = ["dots-far"; "dots-far"; "dots-far"; "dots-far"]%string
  /\ filter isActiveDot (renderDots None (currentIndex s') (indicatorCount p)) = [].
Proof.
  cbv zeta.
  assert (Hipv : 2 <= itemsPerView (withInfiniteLoop (defaults (elements 6) 3)))
    by (vm_compute; discriminate).
  split; [exact (conj eq_refl (conj Hipv eq_refl)) |].
  split; [reflexivity |]. split; [reflexivity |].
  exact (proj2 (proj2 (previous_wrap_leaves_no_active_dot
                         (withInfiniteLoop (defaults (elements 6) 3)) 100%Q
                         (wrapperAt 300 0) initialState eq_refl Hipv eq_refl))).
Defined.

End DotFacts.

(** ** Autoplay by items *)

Lemma succ_mod (n m : Z) :
  1 <= m ->
  (n + 1) mod m = if n mod m + 1 <? m then n mod m + 1 else 0.
Proof.
  intros Hm.
  pose proof (Z.div_mod n m ltac:(lia)) as Hdiv.
  pose proof (Z.mod_pos_bound n m ltac:(lia)) as Hbound.
  destruct (Z.ltb_spec (n mod m + 1) m); symmetry.
  - apply Z.mod_unique with (q := n / m); lia.
  - apply Z.mod_unique with (q := n / m + 1); lia.
Qed.

(** One tick of a running item-wise autoplay. *)
Lemma item_tick (p : Props) (w : Wrapper) (s : State) :
  autoplay p = true ->
  advancePagesOnAutoScroll p = false ->
  touchClickPosition s = None ->
  isMouseInside s = false ->
  currentIndex s + itemsPerView p <= length p ->
  touchClickPosition (step p w AutoplayTick s) = None
  /\ isMouseInside (step p w AutoplayTick s) = false
  /\ currentIndex (step p w AutoplayTick s)
     = if currentIndex s + itemsPerView p <? length p
       then currentIndex s + 1 else 0.
Proof.
  intros Hauto Hadv Hpress Hout Hfit.
  unfold step, nextState. cbn [handle]. unfold autoplayTick, autoplayRuns.
  rewrite Hauto, Hadv, Hpress, Hout. cbn [truthyNum negb andb].
  rewrite nextItem_run. unfold nextItemGuard.
  destruct (Z.leb_spec (currentIndex s + itemsPerView p) (length p)); [| lia].
  rewrite orb_true_r. cbv zeta. cbn [fst]. repeat split. exact Hout.
Qed.

(** Autoplay that advances by items, left alone (no press, pointer outside):
    after [n] ticks from the initial state the index is
    [n mod (length - itemsPerView + 1)], so it cycles through the window
    positions [0 .. length - itemsPerView] whether or not [infiniteLoop] is
    set. *)
Theorem item_autoplay_cycles :
  forall (p : Props) (trace : list (Wrapper * Event)),
    validConfig p ->
    autoplay p = true ->
    advancePagesOnAutoScroll p = false ->
    Forall isTick trace ->
    currentIndex (exec p trace initialState)
    = Z.of_nat (List.length trace) mod (length p - itemsPerView p + 1).
Proof.
  intros p trace V Hauto Hadv Hall.
  unfold validConfig in V.
  set (m := length p - itemsPerView p + 1).
  assert (Hgen : forall (tr : list (Wrapper * Event)) (s : State) (k : Z),
             Forall isTick tr ->
             touchClickPosition s = None ->
             isMouseInside s = false ->
             currentIndex s = k mod m ->
             currentIndex (exec p tr s) = (k + Z.of_nat (List.length tr)) mod m).
  { induction tr as [| [w e] rest IH]; intros s k Htr Hpress Hout Hk.
    - cbn [exec List.length]. rewrite Hk. f_equal. lia.
    - inversion Htr as [| ? ? He Hrest]; subst.
      unfold isTick in He; cbn [snd] in He. subst e. cbn [exec].
      pose proof (Z.mod_pos_bound k m ltac:(subst m; lia)) as Hbound.
      destruct (item_tick p w s Hauto Hadv Hpress Hout
                  ltac:(rewrite Hk; subst m; lia)) as [Hp' [Ho' Hc']].
      rewrite (IH _ (k + 1) Hrest Hp' Ho').
      + f_equal. cbn [List.length]. lia.
      + rewrite Hc', Hk, succ_mod by (subst m; lia).
        destruct (Z.ltb_spec (k mod m + itemsPerView p) (length p)),
                 (Z.ltb_spec (k mod m + 1) m); try reflexivity; subst m; lia. }
  rewrite (Hgen trace initialState 0 Hall eq_refl eq_refl);
    [f_equal | rewrite Z.mod_0_l; [reflexivity | subst m; lia]].
Qed.

(** Ten items shown four per view, not looping: the ninth tick is at index
    2, after a full cycle of seven. *)
Lemma item_autoplay_cycles_witness :
  let p := mkProps (elements 10) 4 false true false false 1%Q 2%Q true in
  let trace := repeat (wrapperAt 400 0, AutoplayTick) 9 in
  (validConfig p /\ autoplay p = true /\ advancePagesOnAutoScroll p = false
   /\ Forall isTick trace)
  /\ isRepeating p = false
  /\ currentIndex (exec p trace initialState) = 2.
Proof.
  cbv zeta.
  assert (V : validConfig
                (mkProps (elements 10) 4 false true false false 1%Q 2%Q true))
    by (unfold validConfig; vm_compute; split; discriminate).
  assert (T : Forall isTick (repeat (wrapperAt 400 0, AutoplayTick) 9))
    by (repeat constructor).
  split; [exact (conj V (conj eq_refl (conj eq_refl T))) |].
  split; [reflexivity |].
  exact (item_autoplay_cycles _ _ V eq_refl eq_refl T).
Defined.

(** ** Paging forward without looping *)

Lemma iterate_step (cmd : State -> Handler) (n : nat) :
  forall s : State,
    iterate cmd (S n) s
    = nextState (cmd (iterate cmd n s)) (iterate cmd n s).
Proof.
  induction n as [| n IH]; intros s; [reflexivity |].
  change (iterate cmd (S (S n)) s)
    with (iterate cmd (S n) (nextState (cmd s) s)).
  rewrite IH. reflexivity.
Qed.

(** Without looping, repeated [nextPage] calls from index 0 advance by
    [itemsPerView] per call and then stay at
    [itemsPerView * (length / itemsPerView)]: the start of the last, partial
    page when [itemsPerView] does not divide [length], and [length] itself,
    one past the last item, when it does. *)
Theorem nextPage_run_stops :
  forall (p : Props) (itemWidth : Q) (w : Wrapper) (s0 : State) (n : nat),
    isRepeating p = false ->
    1 <= itemsPerView p ->
    currentIndex s0 = 0 ->
    currentIndex (iterate (nextPage p itemWidth (Some w)) n s0)
    = itemsPerView p * Z.min (Z.of_nat n) (length p / itemsPerView p).
Proof.
  intros p iw w s0 n Hrep Hipv H0.
  assert (Hlen : 0 <= length p) by (unfold length, Children_count; lia).
  pose proof (Z.quot_rem' (length p) (itemsPerView p)) as Hqr.
  rewrite Z.quot_div_nonneg in Hqr by lia.
  pose proof (Z.div_pos (length p) (itemsPerView p) Hlen ltac:(lia)) as Hq.
  set (q := length p / itemsPerView p) in *.
  induction n as [| n IH].
  - cbn [iterate]. rewrite H0. lia.
  - rewrite iterate_step. unfold nextState. rewrite nextPage_run.
    unfold nextPageGuard, jsRem. rewrite Hrep. cbn [orb].
    destruct (Z.eqb_spec (itemsPerView p) 0); [lia |].
    cbn [jsAddLt]. rewrite IH.
    destruct (Z.ltb_spec (itemsPerView p * Z.min (Z.of_nat n) q
                          + Z.rem (length p) (itemsPerView p)) (length p))
      as [Hlt | Hge]; cbn [fst currentIndex].
    + assert (Hn : Z.of_nat n < q) by nia.
      replace (Z.min (Z.of_nat n) q) with (Z.of_nat n) by lia.
      replace (Z.min (Z.of_nat (S n)) q) with (Z.of_nat n + 1) by lia.
      lia.
    + assert (Hn : q <= Z.of_nat n) by nia.
      replace (Z.min (Z.of_nat n) q) with q by lia.
      replace (Z.min (Z.of_nat (S n)) q) with q by lia.
      rewrite IH. f_equal. lia.
Qed.

(** Ten items by four: 4, 8, then 8 for good.  Eight items by four: 4, 8 and
    there it stays, one past the last index 7. *)
Lemma nextPage_run_stops_witness :
  let ref := Some (wrapperAt 400 0) in
  (isRepeating (defaults (elements 10) 4) = false
   /\ isRepeating (defaults (elements 8) 4) = false
   /\ 1 <= 4 /\ currentIndex initialState = 0)
  /\ currentIndex (iterate (nextPage (defaults (elements 10) 4) 100%Q ref) 5
                           initialState) = 8
  /\ currentIndex (iterate (nextPage (defaults (elements 8) 4) 100%Q ref) 5
                           initialState) = 8.
Proof.
  cbv zeta.
  split; [repeat split; vm_compute; discriminate |].
  split.
  - exact (nextPage_run_stops (defaults (elements 10) 4) 100%Q (wrapperAt 400 0)
             initialState 5 eq_refl ltac:(vm_compute; discriminate) eq_refl).
  - exact (nextPage_run_stops (defaults (elements 8) 4) 100%Q (wrapperAt 400 0)
             initialState 5 eq_refl ltac:(vm_compute; discriminate) eq_refl).
Defined.

(** ** Moves while dragging *)

(** Once dragging, a touch or mouse move changes no state and requests one
    unsmoothed scroll to the baseline recorded at the press minus the walk
    from the press position: the requested offset depends only on where the
    pointer is, not on the moves before it. *)
Theorem dragging_move_tracks_pointer :
  forall (p : Props) (w : Wrapper) (s : State) (origin pageX : Q)
         (move : Q -> Event),
    (move = MouseMove \/ move = TouchMove) ->
    touchClickPosition s = Some origin ->
    isDragging s = true ->
    let h := handle p (computeItemWidth (Some w) (itemsPerView p)) (Some w)
                    (move pageX) s in
    step p w (move pageX) s = s
    /\ exists c : ScrollTo,
        scrolls h s = [c]
        /\ smooth c = false
        /\ (left c
            == scrollLeft s
               - (pageX - offsetLeft w - origin) * scrollSensitivity p)%Q.
Proof.
  intros p w s origin pageX move Hmove Ho Hd h. subst h.
  unfold step, nextState, scrolls.
  destruct Hmove as [-> | ->]; cbn [handle];
    [ rewrite (move_run p w pageX origin s (handleOnMouseMove p));
        [| now right | exact Ho]
    | rewrite (move_run p w pageX origin s (handleOnTouchMove p));
        [| now left | exact Ho] ];
    rewrite Hd; cbn [orb fst snd];
    (split;
     [ destruct s as [ci d mi tc sl]; cbn in Hd; subst d; reflexivity
     | eexists; split; [reflexivity |]; split; [reflexivity |];
       cbn [left]; unfold walkOf; reflexivity ]).
Qed.

(** Dragging from a press at 50 with baseline 300: at pointer position 20
    the request is offset 330. *)
Lemma dragging_move_tracks_pointer_witness :
  let p := defaults (elements 10) 4 in
  let w := wrapperAt 400 310 in
  let s := mkState 3 true true (Some 50%Q) 300%Q in
  (touchClickPosition s = Some 50%Q /\ isDragging s = true)
  /\ step p w (TouchMove 20%Q) s = s
  /\ exists c : ScrollTo,
      scrolls (handleOnTouchMove p (Some w) 20%Q s) s = [c]
      /\ smooth c = false
      /\ (left c == 330)%Q.
Proof.
  cbv zeta. split; [split; reflexivity |].
  destruct (dragging_move_tracks_pointer (defaults (elements 10) 4)
              (wrapperAt 400 310) (mkState 3 true true (Some 50%Q) 300%Q)
              50%Q 20%Q TouchMove (or_intror eq_refl) eq_refl eq_refl)
    as [Hsame [c [Hc [Hsm Hleft]]]].
  split; [exact Hsame |].
  exists c. split; [exact Hc |]. split; [exact Hsm |].
  rewrite Hleft. reflexivity.
Defined.
